(** * Archiver cog: storage backends, channel reconciliation, configuration

    A shallow embedding of [archiver/archiver.py].  Python objects become
    records, the two storage backends become one inductive type, and the
    methods of the [Archiver] cog become computations in a small
    state-and-exception monad over the part of the world the cog touches
    (its own attributes, the config file, the stores on disk, the remote
    message source).  *)

From stdpp Require Import base option list strings gmap.
From Stdlib Require Import ZArith.

Open Scope string_scope.
Open Scope list_scope.
Open Scope Z_scope.
Set Default Proof Using "Type".

(** ** Messages *)

(** Snowflake ids.  The JSON carries them as decimal strings; the model keeps
    their numeric value, so that Python's [int(msg['id'])] is the identity
    and equality of ids is equality of values. *)
Definition Id := Z.

Definition int (i : Id) : Z := i.

(** A message document.  [_id] is the primary key MongoDB reads and
    [MongoMotorArchive.add_messages] writes ([m['_id'] = m['id']]); it is
    absent on a message as fetched.  [author_id] is [m['author']['id']];
    [content] stands for the fields passed through verbatim. *)
Record Message := mkMessage {
  _id : option Id;
  id : Id;
  author_id : Id;
  channel_id : Id;
  content : string
}.

#[global] Instance Message_eq_dec : EqDecision Message.
Proof. solve_decision. Defined.

(** ** Exceptions and outcomes *)

Inductive Exn :=
| KeyError (k : string)
| TypeError
| AttributeError (a : string)
| DuplicateKeyError (i : Id)
| HTTPException (code : Z).

(** What a call does: return a value, raise, or (for the [while True] loops)
    still be running when the iteration bound of the model is used up. *)
Inductive Outcome (A : Type) :=
| Ok (a : A)
| Raise (e : Exn)
| OutOfFuel.
Arguments Ok {A} a.
Arguments Raise {A} e.
Arguments OutOfFuel {A}.

(** ** Values of the configuration *)

(** A JSON value of the configuration: a string or a boolean. *)
Inductive Value :=
| VStr (s : string)
| VBool (b : bool).

#[global] Instance Value_eq_dec : EqDecision Value.
Proof. solve_decision. Defined.

#[global] Instance Value_countable : Countable Value :=
  inj_countable'
    (λ v, match v with VStr s => inl s | VBool b => inr b end)
    (λ x, match x with inl s => VStr s | inr b => VBool b end)
    (λ v, match v with VStr _ | VBool _ => eq_refl end).

(** A string is a value. *)
Coercion VStr : string >-> Value.

(** ** Storage backends *)

(** A backend instance.  Neither constructor looks at the location it is
    given ([self.path = dbpath], line 94; [AsyncIOMotorClient(dbpath)], line
    146): it is whatever value the configuration holds.
    - [TinyDBArchive path db file]: [db] is the table as held by the caching
      middleware, [file] is the JSON file at [path] as last written (the
      middleware also writes on its own after every 1000 writes; the model
      leaves that out).
    - [MongoMotorArchive dbpath messages]: the [messages] collection of the
      database at [dbpath]; every write goes to the server at once. *)
Inductive Archive :=
| TinyDBArchive (path : Value) (db : list Message) (file : list Message)
| MongoMotorArchive (dbpath : Value) (messages : list Message).

(** How a filter argument of [get_messages] is passed: not at all, as an
    object with an [id] attribute, as a dict with an ['id'] key, or bare.
    A bare id is a string like the ids of the stored messages: it is never
    empty, so Python takes it for true whatever its digits.  The other bare
    values that occur are the empty string and an integer. *)
Inductive Ref :=
| Omitted
| Obj (i : Id)
| Dict (i : Id)
| Raw (i : Id)
| EmptyStr
| Int (z : Z).

(** What [user_id] and [channel_id] hold after lines 53-61, when not [None]:
    an id, or an integer. *)
Inductive Key :=
| IdKey (i : Id)
| IntKey (z : Z).

(** Truthiness of an integer. *)
Definition truthy (z : Z) : bool := negb (z =? 0).

(** Lines 53-56 and 58-61 of [Archive.get_messages].  The last branch,
    [elif user: user_id = user], is taken by a truthy bare value only. *)
Definition filter_id (r : Ref) : option Key :=
  match r with
  | Obj i => Some (IdKey i)
  | Dict i => Some (IdKey i)
  | Raw i => Some (IdKey i)
  | EmptyStr => None
  | Int z => if truthy z then Some (IntKey z) else None
  | Omitted => None
  end.

(** [user_id is not None and user_id != m['author']['id']].  The id of a
    stored message is a string, which an integer never equals. *)
Definition is_not (f : option Key) (x : Id) : bool :=
  match f with
  | Some (IdKey i) => negb (i =? x)
  | Some (IntKey _) => true
  | None => false
  end.

(** [get_all_messages]: [self.db.all()] for TinyDB, [self.db.messages.find()]
    for MongoDB.  The list is in the order the backend enumerates. *)
Definition get_all_messages (a : Archive) : list Message :=
  match a with
  | TinyDBArchive _ db _ => db
  | MongoMotorArchive _ messages => messages
  end.

(** The [async for] loop of [Archive.get_messages], with its two [continue]s. *)
Fixpoint get_messages_loop (user_id channel_id' : option Key)
    (messages : list Message) : list Message :=
  match messages with
  | [] => []
  | m :: rest =>
      if is_not user_id (author_id m) then
        get_messages_loop user_id channel_id' rest
      else if is_not channel_id' (channel_id m) then
        get_messages_loop user_id channel_id' rest
      else m :: get_messages_loop user_id channel_id' rest
  end.

Definition get_messages (a : Archive) (user channel : Ref) : list Message :=
  let messages := get_all_messages a in
  let user_id := filter_id user in
  let channel_id' := filter_id channel in
  get_messages_loop user_id channel_id' messages.

(** [self.db.contains(Message.id == i)] *)
Definition contains (db : list Message) (i : Id) : bool :=
  existsb (fun d => id d =? i) db.

(** [self.db.insert(msg)] *)
Definition insert (db : list Message) (msg : Message) : list Message :=
  db ++ [msg].

(** [TinyDBArchive.add_messages], the second definition (the one in force). *)
Fixpoint tinydb_add_messages (db : list Message) (messages : list Message)
    (all_new : bool) (added : nat) : nat * list Message :=
  match messages with
  | [] => (added, db)
  | msg :: rest =>
      if all_new || negb (contains db (id msg)) then
        tinydb_add_messages (insert db msg) rest all_new (S added)
      else
        tinydb_add_messages db rest all_new added
  end.

(** [find_one({'_id': i})] *)
Definition find_one (coll : list Message) (i : Id) : option Message :=
  List.find (fun d => bool_decide (_id d = Some i)) coll.

(** [insert_one(m)]: the collection has a unique index on [_id]. *)
Definition insert_one (coll : list Message) (m : Message)
  : Outcome unit * list Message :=
  match _id m with
  | Some i =>
      match find_one coll i with
      | Some _ => (Raise (DuplicateKeyError i), coll)
      | None => (Ok (), coll ++ [m])
      end
  | None => (Ok (), coll ++ [m])
  end.

(** [m['_id'] = m['id']].  The assignment is made on the caller's message
    object; the caller, [archive_channel], only reads [msg['id']] afterwards,
    so the model keeps the change to the document that is stored. *)
Definition set__id (m : Message) : Message :=
  {| _id := Some (id m); id := id m; author_id := author_id m;
     channel_id := channel_id m; content := content m |}.

(** [MongoMotorArchive.add_messages] *)
Fixpoint mongo_add_messages (coll : list Message) (messages : list Message)
    (all_new : bool) (added : nat) : Outcome nat * list Message :=
  match messages with
  | [] => (Ok added, coll)
  | m0 :: rest =>
      let m := set__id m0 in
      if all_new then
        match insert_one coll m with
        | (Ok _, coll') => mongo_add_messages coll' rest all_new (S added)
        | (Raise e, coll') => (Raise e, coll')
        | (OutOfFuel, coll') => (OutOfFuel, coll')
        end
      else
        match find_one coll (id m) with
        | Some _ => mongo_add_messages coll rest all_new added
        | None =>
            match insert_one coll m with
            | (Ok _, coll') => mongo_add_messages coll' rest all_new (S added)
            | (Raise e, coll') => (Raise e, coll')
            | (OutOfFuel, coll') => (OutOfFuel, coll')
            end
        end
  end.

(** [add_messages], dispatched on the backend. *)
Definition add_messages (a : Archive) (messages : list Message)
    (all_new : bool) : Outcome nat * Archive :=
  match a with
  | TinyDBArchive path db file =>
      let '(added, db') := tinydb_add_messages db messages all_new 0 in
      (Ok added, TinyDBArchive path db' file)
  | MongoMotorArchive dbpath coll =>
      let '(r, coll') := mongo_add_messages coll messages all_new 0 in
      (r, MongoMotorArchive dbpath coll')
  end.

(** [flush]: TinyDB writes the cached table to its file; the MongoDB backend
    inherits [Archive.flush], which does nothing. *)
Definition flush (a : Archive) : Archive :=
  match a with
  | TinyDBArchive path db _ => TinyDBArchive path db db
  | MongoMotorArchive dbpath coll => MongoMotorArchive dbpath coll
  end.

(** [close]: neither backend overrides [Archive.close], which does nothing. *)
Definition close (a : Archive) : Archive := a.

(** ** The world of the cog *)

(** A [discord.Channel]: what the cog reads is its [id]. *)
Record Channel := mkChannel {
  chan_id : Id;
  chan_name : string
}.

(** The request [_fetch_messages] builds: channel, [limit], and the optional
    [before] and [after] cursors of the query string. *)
Record Route := mkRoute {
  route_channel : Id;
  route_limit : Z;
  route_before : option Z;
  route_after : option Z
}.

(** What the cog tells the bot to say. *)
Inductive Said :=
| SayConfig (c : gmap string Value)
| SayValue (key : string) (v : Value)
| SayNotInstalled (value : string)
| SayReloaded.

(** The calls the trace records, in order: requests to the remote, flushes of
    the backend, dumps of the configuration, and what the bot is told to say.
    Reading and adding records ([get_messages], [add_messages]) are calls on
    the backend too; they are not events, their effect is on [self_archive]. *)
Inductive Event :=
| Request (r : Route)              (* self.bot.http.request(r) *)
| Flush                            (* self.archive.flush() *)
| Dump (c : gmap string Value)     (* json.dump(self.config, config_fp) *)
| Say (s : Said).                  (* bot.say(...) *)

(** - [self_config], [self_archive]: the attributes of the [Archiver] object
      ([self_archive = None] while it has no [archive] attribute);
    - [config_file]: the contents of [data/archiver/config.json], if it exists;
    - [files], [databases]: the JSON files and MongoDB databases at rest, by
      location, other than the store of the active backend;
    - [trace]: the calls made so far. *)
Record World := mkWorld {
  self_config : gmap string Value;
  self_archive : option Archive;
  config_file : option (gmap string Value);
  files : gmap Value (list Message);
  databases : gmap Value (list Message);
  trace : list Event
}.

Definition set_config (c : gmap string Value) (w : World) : World :=
  mkWorld c (self_archive w) (config_file w) (files w) (databases w) (trace w).

Definition set_archive (a : option Archive) (w : World) : World :=
  mkWorld (self_config w) a (config_file w) (files w) (databases w) (trace w).

Definition set_config_file (f : option (gmap string Value)) (w : World) : World :=
  mkWorld (self_config w) (self_archive w) f (files w) (databases w) (trace w).

Definition set_files (fs : gmap Value (list Message)) (w : World) : World :=
  mkWorld (self_config w) (self_archive w) (config_file w) fs (databases w) (trace w).

Definition set_databases (ds : gmap Value (list Message)) (w : World) : World :=
  mkWorld (self_config w) (self_archive w) (config_file w) (files w) ds (trace w).

Definition emit (e : Event) (w : World) : World :=
  mkWorld (self_config w) (self_archive w) (config_file w) (files w)
    (databases w) (trace w ++ [e]).

(** ** State and exceptions *)

Definition M (A : Type) : Type := World → Outcome A * World.

Definition ret {A} (a : A) : M A := λ w, (Ok a, w).

Definition bind {A B} (k : A → M B) (m : M A) : M B :=
  λ w, match m w with
       | (Ok a, w') => k a w'
       | (Raise e, w') => (Raise e, w')
       | (OutOfFuel, w') => (OutOfFuel, w')
       end.

#[global] Instance M_ret : MRet M := @ret.
#[global] Instance M_bind : MBind M := @bind.

Definition raise {A} (e : Exn) : M A := λ w, (Raise e, w).
Definition out_of_fuel {A} : M A := λ w, (OutOfFuel, w).
Definition gets {A} (f : World → A) : M A := λ w, (Ok (f w), w).
Definition modify (f : World → World) : M unit := λ w, (Ok (), f w).
Definition lift {A} (o : Outcome A) : M A := λ w, (o, w).

(** [d[k]] on a dict. *)
Definition getitem {V} (d : gmap string V) (k : string) : M V :=
  match d !! k with
  | Some v => ret v
  | None => raise (KeyError k)
  end.

(** ** The module's globals and the [Archiver] cog *)

(** The classes registered in [archive_backends]. *)
Inductive BackendClass :=
| TinyDBArchive_cls
| MongoMotorArchive_cls.

Definition DEFAULT_CONFIG : gmap string Value :=
  <["watch" := VBool false]> (<["backend" := VStr "TinyDB"]> ∅).

Section Archiver.

(** Whether [tinydb] and [motor] could be imported. *)
Variables TinyDB Motor : bool.

(** [self.bot.http.request]: the remote source, as seen during one call. *)
Variable request : Route → Outcome (list Message).

Definition archive_backends : gmap string BackendClass :=
  let d := ∅ in
  let d := if TinyDB then <["TinyDB" := TinyDBArchive_cls]> d else d in
  if Motor then <["MongoDB" := MongoMotorArchive_cls]> d else d.

Definition DEFAULT_PATH : gmap string string :=
  let d := ∅ in
  let d := if TinyDB then <["TinyDB" := "data/archiver/messages.json"]> d else d in
  if Motor then <["MongoDB" := "mongodb://localhost/discordArchiver"]> d else d.

(** [_load_config] *)
Definition _load_config : M unit :=
  modify (set_config DEFAULT_CONFIG);;
  f ← gets config_file;
  match f with
  | Some json_config =>
      modify (λ w, set_config (json_config ∪ self_config w) w)
  | None => mret ()
  end.

(** [_save_config] *)
Definition _save_config : M unit :=
  c ← gets self_config;
  modify (set_config_file (Some c));;
  modify (emit (Dump c)).

(** The store of a backend that stops being the active one stays where it
    is: the JSON file as last written, the MongoDB collection as it is. *)
Definition at_rest (a : option Archive) (w : World) : World :=
  match a with
  | Some (TinyDBArchive path _ file) => set_files (<[path := file]> (files w)) w
  | Some (MongoMotorArchive dbpath coll) =>
      set_databases (<[dbpath := coll]> (databases w)) w
  | None => w
  end.

(** [archive_backends[backend](dbpath)]: the constructors (lines 93-97 and
    145-147) take the location as it comes and open the store found there. *)
Definition construct (cls : BackendClass) (dbpath : Value) : M Archive :=
  match cls with
  | TinyDBArchive_cls =>
      fs ← gets files;
      let file := default [] (fs !! dbpath) in
      mret (TinyDBArchive dbpath file file)
  | MongoMotorArchive_cls =>
      ds ← gets databases;
      mret (MongoMotorArchive dbpath (default [] (ds !! dbpath)))
  end.

(** [_make_backend] *)
Definition _make_backend : M unit :=
  old ← gets self_archive;
  match old with
  | Some a => modify (set_archive (Some (close a)))
  | None => mret ()
  end;;
  config ← gets self_config;
  backend ← getitem config "backend";
  match backend with
  | VBool _ => raise TypeError    (* backend+"_path" *)
  | VStr backend =>
      let key := backend +:+ "_path" in
      dflt ← getitem DEFAULT_PATH backend;
      let v := default (VStr dflt) (config !! key) in   (* setdefault *)
      modify (set_config (<[key := v]> config));;
      cls ← getitem archive_backends backend;
      old ← gets self_archive;
      modify (at_rest old);;
      a ← construct cls v;
      modify (set_archive (Some a))
  end.

(** [__init__]: a new [Archiver] object, with no attributes yet. *)
Definition __init__ : M unit :=
  old ← gets self_archive;
  modify (at_rest old);;
  modify (set_archive None);;
  modify (set_config ∅);;
  _load_config;;
  _save_config;;
  _make_backend.

(** [if before:] on an optional integer cursor. *)
Definition if_set (c : option Z) : option Z :=
  match c with
  | Some z => if truthy z then Some z else None
  | None => None
  end.

(** [_fetch_messages] *)
Definition _fetch_messages (channel : Channel) (limit : Z)
    (before after : option Z) : M (list Message) :=
  let r := {| route_channel := chan_id channel; route_limit := limit;
              route_before := if_set before; route_after := if_set after |} in
  modify (emit (Request r));;
  lift (request r).

(** [self.archive] *)
Definition the_archive : M Archive :=
  a ← gets self_archive;
  match a with
  | Some a => mret a
  | None => raise (AttributeError "archive")
  end.

(** [self.archive.add_messages(messages, all_new=...)] *)
Definition archive_add_messages (messages : list Message) (all_new : bool)
  : M nat :=
  a ← the_archive;
  let '(r, a') := add_messages a messages all_new in
  modify (set_archive (Some a'));;
  lift r.

(** [self.archive.flush()] *)
Definition archive_flush : M unit :=
  a ← the_archive;
  modify (set_archive (Some (flush a)));;
  modify (emit Flush).

(** One pass of the loop body of lines 248-251 (and 253-256). *)
Definition watermark_step (w : Z * Z) (msg : Message) : Z * Z :=
  let '(oldest_id, latest_id) := w in
  let oldest_id := Z.min latest_id (int (id msg)) in
  let latest_id := Z.max latest_id (int (id msg)) in
  (oldest_id, latest_id).

(** Lines 245-256: the watermarks [(oldest_id, latest_id)] from [msg1] and
    the messages still to be iterated. *)
Definition compute_watermarks (msg1 : Message) (messages : list Message)
  : Z * Z :=
  let oldest_id := int (id msg1) in
  let latest_id := oldest_id in
  fold_left watermark_step messages (oldest_id, latest_id).

(** Lines 259-266, "Get new messages". *)
Fixpoint get_new_messages (fuel : nat) (channel : Channel) (added : nat)
    (latest_id : Z) : M (nat * Z) :=
  match fuel with
  | O => out_of_fuel
  | S fuel =>
      messages ← _fetch_messages channel 100 None (Some latest_id);
      if (length messages =? 0)%nat then mret (added, latest_id)
      else
        n ← archive_add_messages messages true;
        let latest_id :=
          fold_left (λ l msg, Z.max l (int (id msg))) messages latest_id in
        get_new_messages fuel channel (added + n)%nat latest_id
  end.

(** Lines 269-275, "Get old messages". *)
Fixpoint get_old_messages (fuel : nat) (channel : Channel) (added : nat)
    (oldest_id : Z) : M (nat * Z) :=
  match fuel with
  | O => out_of_fuel
  | S fuel =>
      messages ← _fetch_messages channel 100 (Some oldest_id) None;
      if (length messages =? 0)%nat then mret (added, oldest_id)
      else
        n ← archive_add_messages messages true;
        let oldest_id :=
          fold_left (λ o msg, Z.min o (int (id msg))) messages oldest_id in
        get_old_messages fuel channel (added + n)%nat oldest_id
  end.

(** Lines 258-278: both loops, the flush, the result. *)
Definition fill (fuel : nat) (channel : Channel) (added : nat)
    (oldest_id latest_id : Z) : M nat :=
  '(added, latest_id) ← get_new_messages fuel channel added latest_id;
  '(added, oldest_id) ← get_old_messages fuel channel added oldest_id;
  archive_flush;;
  mret added.

(** [archive_channel].  [fuel] bounds the iterations of each loop. *)
Definition archive_channel (fuel : nat) (channel : Channel) : M nat :=
  let added := 0%nat in
  a ← the_archive;
  match get_messages a Omitted (Obj (chan_id channel)) with
  | msg1 :: messages =>
      (* the generator has yielded [msg1]; [messages] is what is left *)
      let '(oldest_id, latest_id) := compute_watermarks msg1 messages in
      fill fuel channel added oldest_id latest_id
  | [] =>
      messages ← _fetch_messages channel 100 None None;
      match messages with
      | msg1 :: _ =>
          n ← archive_add_messages messages true;
          let added := (added + n)%nat in
          let '(oldest_id, latest_id) := compute_watermarks msg1 messages in
          fill fuel channel added oldest_id latest_id
      | [] => mret 0%nat
      end
  end.

(** [len(key) > 5 and key[-5:] == "_path"] *)
Definition is_path_key (key : string) : bool :=
  (5 <? String.length key)%nat
  && String.eqb (String.substring (String.length key - 5) 5 key) "_path".

Definition say (s : Said) : M unit := modify (emit (Say s)).

(** [_archive_config] *)
Definition _archive_config (key value : option string) : M unit :=
  match key with
  | None =>
      c ← gets self_config;
      say (SayConfig c)
  | Some key =>
      if String.eqb key "reload" then
        _load_config;;
        _make_backend
      else
        match value with
        | None =>
            c ← gets self_config;
            v ← getitem c key;
            say (SayValue key v)
        | Some value =>
            let set_it : M unit :=
              modify (λ w, set_config (<[key := VStr value]> (self_config w)) w) in
            let rest : M unit :=
              set_it;;
              (if is_path_key key || String.eqb key "backend" then
                 _make_backend;;
                 say SayReloaded
               else mret ());;
              _save_config in
            if String.eqb key "backend" then
              if bool_decide (is_Some (archive_backends !! value)) then
                set_it;;
                rest
              else
                say (SayNotInstalled value)   (* and return *)
            else rest
        end
  end.

End Archiver.

(** ** Vocabulary of the statements *)

(** What a filter argument lets through.  An id, however it is passed, lets
    through the records that carry it.  A bare value that Python takes for
    false (the empty string, the integer 0) is no filter at all, like [None];
    any other integer lets nothing through, the stored ids being strings. *)
Definition wanted (f : Ref) (x : Id) : bool :=
  match f with
  | Omitted => true
  | Obj i | Dict i | Raw i => bool_decide (x = i)
  | EmptyStr => true
  | Int z => bool_decide (z = 0)
  end.


(** The ids of the stored records, in enumeration order. *)
Definition ids (a : Archive) : list Id := map id (get_all_messages a).

(** Every document of a MongoDB collection written by [add_messages] has its
    [id] as primary key. *)
Definition keyed (a : Archive) : Prop :=
  match a with
  | TinyDBArchive _ _ _ => True
  | MongoMotorArchive _ coll => Forall (λ d, _id d = Some (id d)) coll
  end.

(** The document a backend stores for a message. *)
Definition stored (a : Archive) (r : Message) : Message :=
  match a with
  | TinyDBArchive _ _ _ => r
  | MongoMotorArchive _ _ => set__id r
  end.

(** Number of stored records with a given id. *)
Definition copies (a : Archive) (i : Id) : nat :=
  length (List.filter (λ d, id d =? i) (get_all_messages a)).

(** The first request of a channel with nothing stored: the latest page. *)
Definition latest_page (channel : Channel) : Route :=
  {| route_channel := chan_id channel; route_limit := 100;
     route_before := None; route_after := None |}.

(** ** A remote source and a first run, for the examples *)

(** A message with id [i], written by author 1 in channel 10. *)
Definition message (i : Id) : Message := mkMessage None i 1 10 "hello".

(** Whether a message of the remote history falls under a request. *)
Definition in_range (r : Route) (m : Message) : bool :=
  (channel_id m =? route_channel r)
  && match route_before r with Some b => id m <? b | None => true end
  && match route_after r with Some a => a <? id m | None => true end.

(** A remote source that holds [history] and answers every request with the
    messages of the channel beyond the cursor, in the order of [history]
    (newest first for Discord), at most [limit] of them. *)
Definition serve (history : list Message) (r : Route) : Outcome (list Message) :=
  Ok (take (Z.to_nat (route_limit r)) (List.filter (in_range r) history)).

(** A remote source that serves the first page and fails afterwards. *)
Definition serve_once (history : list Message) (r : Route)
  : Outcome (list Message) :=
  match route_before r, route_after r with
  | None, None => serve history r
  | _, _ => Raise (HTTPException 502)
  end.

Definition general : Channel := mkChannel 10 "general".
Definition random : Channel := mkChannel 11 "random".

(** Nothing on disk, no cog yet. *)
Definition nothing : World := mkWorld ∅ None None ∅ ∅ [].

(** The world after the cog has been loaded for the first time, with TinyDB
    installed and motor not. *)
Definition started : World := (__init__ true false nothing).2.

(** The ids held by the active backend. *)
Definition stored_ids (w : World) : list Id :=
  match self_archive w with
  | Some a => ids a
  | None => []
  end.

(** The backend object a class builds for the store at [p]. *)
Definition opened (cls : BackendClass) (p : Value) (w : World) : Archive :=
  match cls with
  | TinyDBArchive_cls =>
      TinyDBArchive p (default [] (files w !! p)) (default [] (files w !! p))
  | MongoMotorArchive_cls =>
      MongoMotorArchive p (default [] (databases w !! p))
  end.

(** The configuration a load should give: the file's entries, and the
    defaults for the keys the file does not have. *)
Definition merged (file : option (gmap string Value)) : gmap string Value :=
  match file with
  | Some json_config => json_config ∪ DEFAULT_CONFIG
  | None => DEFAULT_CONFIG
  end.

(** The running cog of [started], after the config file has been edited by
    hand down to the backend entry. *)
Definition edited : World :=
  set_config_file (Some {["backend" := VStr "TinyDB"]}) started.

(** A config file written by hand, in which the TinyDB path is not a
    string. *)
Definition hand_edited : World :=
  set_config_file (Some {["TinyDB_path" := VBool true]}) nothing.

(** Two messages of channel 11. *)
Definition chatter : list Message :=
  [mkMessage None 4 2 11 "ping"; mkMessage None 2 1 11 "pong"].

(** The world after [archive_channel] on channel 11 was cut short: the first
    page was stored, then the remote failed. *)
Definition interrupted : World :=
  (archive_channel (serve_once chatter) 3 random started).2.

(** The requests of the two loops. *)
Definition newer (channel : Channel) (latest_id : Z) : Route :=
  {| route_channel := chan_id channel; route_limit := 100;
     route_before := None; route_after := if_set (Some latest_id) |}.

Definition older (channel : Channel) (oldest_id : Z) : Route :=
  {| route_channel := chan_id channel; route_limit := 100;
     route_before := if_set (Some oldest_id); route_after := None |}.

(** How many messages of the history a request still asks for. *)
Definition pending (history : list Message) (r : Route) : nat :=
  length (List.filter (in_range r) history).

(** ** Further vocabulary *)

(** Two backend objects are the same store: same class, same location. *)
Definition same_store (a a' : Archive) : Prop :=
  match a, a' with
  | TinyDBArchive path _ _, TinyDBArchive path' _ _ => path = path'
  | MongoMotorArchive dbpath _, MongoMotorArchive dbpath' _ => dbpath = dbpath'
  | _, _ => False
  end.

(** The keys of a MongoDB collection. *)
Definition keys (coll : list Message) : list (option Id) := map _id coll.

(** What [archive_channel] leaves alone: the configuration, the config file,
    the stores at rest; the trace only grows; the active backend stays the
    same store and keeps its records, in their order. *)
Definition keeps (w w' : World) : Prop :=
  self_config w' = self_config w
  ∧ config_file w' = config_file w
  ∧ files w' = files w
  ∧ databases w' = databases w
  ∧ trace w `prefix_of` trace w'
  ∧ match self_archive w, self_archive w' with
    | Some a, Some a' =>
        same_store a a' ∧ get_all_messages a `prefix_of` get_all_messages a'
    | None, None => True
    | _, _ => False
    end.

(** What [archive_channel channel] may add to the trace: a request for that
    channel, for a page of 100, with at most one cursor; or a flush. *)
Definition expected (channel : Channel) (e : Event) : Prop :=
  match e with
  | Request r =>
      route_channel r = chan_id channel ∧ route_limit r = 100
      ∧ (route_before r = None ∨ route_after r = None)
  | Flush => True
  | Dump _ | Say _ => False
  end.

(** The active backend is what the configuration says: an instance of the
    class registered under [config['backend']], at the location
    [config[backend+"_path"]]. *)
Definition backend_matches (TinyDB Motor : bool) (w : World) : Prop :=
  ∃ b cls (p : Value),
    self_config w !! "backend" = Some (VStr b)
    ∧ archive_backends TinyDB Motor !! b = Some cls
    ∧ self_config w !! (b +:+ "_path") = Some p
    ∧ match cls, self_archive w with
      | TinyDBArchive_cls, Some (TinyDBArchive path _ _) => path = p
      | MongoMotorArchive_cls, Some (MongoMotorArchive dbpath _) => dbpath = p
      | _, _ => False
      end.

(** ** The event hook and the channel command *)

(** Truthiness of a configuration value: a boolean is itself, a string is
    true unless it is empty. *)
Definition truthy_value (v : Value) : bool :=
  match v with
  | VBool b => b
  | VStr s => negb (String.eqb s EmptyString)
  end.

(** [on_message]; of the message it reads the channel. *)
Definition on_message (request : Route → Outcome (list Message)) (fuel : nat)
    (channel : Channel) : M unit :=
  config ← gets self_config;
  if truthy_value (default (VBool false) (config !! "watch")) then
    archive_channel request fuel channel;;
    mret ()
  else mret ().

(** [discord.enums.ChannelType] *)
Inductive ChannelType :=
| text
| private
| voice
| group.

(** A channel as the bot knows it: with its type and the name of its server. *)
Record Listed := mkListed {
  listed_channel : Channel;
  listed_type : ChannelType;
  listed_server : string
}.

(** What the channel command tells the bot to say. *)
Inductive Reply :=
| CouldNotFind (channel_s : string)
| Archiving (channel : Channel)
| Got (added : nat) (server name : string)
| CouldNotArchive (name : string) (e : Exn).

(** Lines 303-311: the channels to archive.  [None] stands for the [None]
    that [bot.get_channel] returns for a name it does not know, and that the
    loop appends to [target_channels] all the same. *)
Definition target_channels (get_channel : string → option Listed)
    (get_all_channels : list Listed) (channels : list string)
  : list (option Listed) * list Reply :=
  match channels with
  | [c] =>
      if String.eqb c "*" then (map Some get_all_channels, [])
      else
        (map get_channel channels,
         omap (λ channel_s,
                 match get_channel channel_s with
                 | None => Some (CouldNotFind channel_s)
                 | Some _ => None
                 end) channels)
  | _ =>
      (map get_channel channels,
       omap (λ channel_s,
               match get_channel channel_s with
               | None => Some (CouldNotFind channel_s)
               | Some _ => None
               end) channels)
  end.

(** Lines 313-322: the loop over [target_channels].  The replies are
    collected in the order they are said.  [logger.info] reads [channel.id]
    first, which raises on [None]; an exception of [archive_channel] is
    caught and reported, and the loop goes on. *)
Fixpoint archive_each (request : Route → Outcome (list Message)) (fuel : nat)
    (targets : list (option Listed)) (w : World)
  : Outcome unit * World * list Reply :=
  match targets with
  | [] => (Ok (), w, [])
  | None :: _ => (Raise (AttributeError "id"), w, [])
  | Some c :: rest =>
      let channel := listed_channel c in
      let continue (w' : World) (said : list Reply) :=
        let '(r, w'', more) := archive_each request fuel rest w' in
        (r, w'', said ++ more) in
      match listed_type c with
      | text =>
          match archive_channel request fuel channel w with
          | (Ok added, w') =>
              continue w' [Archiving channel;
                           Got added (listed_server c) (chan_name channel)]
          | (Raise e, w') =>
              continue w' [Archiving channel;
                           CouldNotArchive (chan_name channel) e]
          | (OutOfFuel, w') => (OutOfFuel, w', [Archiving channel])
          end
      | _ => continue w [Archiving channel]
      end
  end.

(** [_archive_channel].  The last line, [self.bot.say("Done archiving
    Everything.")], builds a coroutine that is never awaited: nothing is
    said. *)
Definition _archive_channel (request : Route → Outcome (list Message))
    (fuel : nat) (get_channel : string → option Listed)
    (get_all_channels : list Listed) (channels : list string) (w : World)
  : Outcome unit * World * list Reply :=
  let '(targets, not_found) :=
    target_channels get_channel get_all_channels channels in
  let '(r, w', said) := archive_each request fuel targets w in
  (r, w', not_found ++ said).

(** The channel a reply announces. *)
Definition announced (r : Reply) : option Channel :=
  match r with
  | Archiving channel => Some channel
  | _ => None
  end.

(** The channels among the targets. *)
Definition found (targets : list (option Listed)) : list Channel :=
  omap (λ t, listed_channel <$> t) targets.

(** A remote source that serves [history] for the channel [c] alone and
    refuses every other channel. *)
Definition serve_only (c : Id) (history : list Message) (r : Route)
  : Outcome (list Message) :=
  if route_channel r =? c then serve history r
  else Raise (HTTPException 403).

(** The bot of the examples knows two text channels and a voice channel, by
    their ids. *)
Definition lounge : Channel := mkChannel 12 "lounge".

Definition directory : list Listed :=
  [mkListed general text "guild"; mkListed random text "guild";
   mkListed lounge voice "guild"].

Definition by_id (channel_s : string) : option Listed :=
  if String.eqb channel_s "10" then Some (mkListed general text "guild")
  else if String.eqb channel_s "11" then Some (mkListed random text "guild")
  else if String.eqb channel_s "12" then Some (mkListed lounge voice "guild")
  else None.

(** ** Queries *)

Lemma is_not_wanted (f : Ref) (x : Id) :
  is_not (filter_id f) x = negb (wanted f x).
Proof.
  assert (Hneq : ∀ i, negb (i =? x) = negb (bool_decide (x = i))).
  { intros i. f_equal. destruct (Z.eqb_spec i x); case_bool_decide; congruence. }
  destruct f as [|i|i|i| |z]; simpl; auto.
  unfold truthy. destruct (Z.eqb_spec z 0) as [Hz|Hz]; simpl.
  - by rewrite (bool_decide_eq_true_2 _ Hz).
  - by rewrite (bool_decide_eq_false_2 _ Hz).
Qed.

Lemma get_messages_loop_filter (u c : Ref) (messages : list Message) :
  get_messages_loop (filter_id u) (filter_id c) messages
  = List.filter (λ m, wanted u (author_id m) && wanted c (channel_id m))
      messages.
Proof.
  induction messages as [|m rest IH]; simpl; [done|].
  rewrite !is_not_wanted, IH.
  destruct (wanted u (author_id m)), (wanted c (channel_id m)); done.
Qed.



(** ** Upsert *)

Lemma contains_ids (db : list Message) (i : Id) :
  contains db i = true ↔ i ∈ map id db.
Proof.
  unfold contains. rewrite existsb_exists, list_elem_of_In, in_map_iff.
  split; intros (d & H1 & H2); exists d.
  - apply Z.eqb_eq in H2. split; assumption.
  - rewrite Z.eqb_eq. split; assumption.
Qed.

Lemma contains_false_ids (db : list Message) (i : Id) :
  contains db i = false ↔ i ∉ map id db.
Proof. rewrite <- contains_ids. destruct (contains db i); naive_solver. Qed.

Lemma find_one_ids (coll : list Message) (i : Id) :
  Forall (λ d, _id d = Some (id d)) coll →
  is_Some (find_one coll i) ↔ i ∈ map id coll.
Proof.
  intros Hk. unfold find_one.
  induction Hk as [|d coll Hd Hk IH]; simpl.
  - split; [by intros [? ?]|by intros ?%elem_of_nil].
  - rewrite elem_of_cons. case_bool_decide as Hi.
    + split; [|by eauto]. intros _. left. rewrite Hd in Hi. congruence.
    + rewrite IH. split; [tauto|]. intros [->|?]; [|done].
      by rewrite Hd in Hi.
Qed.

Lemma find_one_None_ids (coll : list Message) (i : Id) :
  Forall (λ d, _id d = Some (id d)) coll →
  find_one coll i = None ↔ i ∉ map id coll.
Proof.
  intros Hk. rewrite <- (find_one_ids _ _ Hk), eq_None_not_Some. done.
Qed.

Lemma ids_snoc (db : list Message) (m : Message) :
  map id (db ++ [m]) = map id db ++ [id m].
Proof. by rewrite map_app. Qed.

Lemma NoDup_snoc_ids (l : list Id) (i : Id) :
  NoDup l → i ∉ l → NoDup (l ++ [i]).
Proof.
  intros Hl Hi. apply NoDup_app. split; [done|]. split; [|apply NoDup_singleton].
  intros x Hx ->%list_elem_of_singleton. done.
Qed.

(** With [all_new=False] TinyDB keeps ids unique over a whole batch. *)
Lemma tinydb_add_messages_NoDup (messages db : list Message) (added : nat) :
  NoDup (map id db) →
  NoDup (map id (tinydb_add_messages db messages false added).2).
Proof.
  revert db added. induction messages as [|msg rest IH]; intros db added Hdb;
    simpl; [done|].
  destruct (contains db (id msg)) eqn:Hc; simpl; apply IH; [done|].
  unfold insert. rewrite ids_snoc. apply NoDup_snoc_ids; [done|].
  by apply contains_false_ids.
Qed.

(** With [all_new=False] MongoDB never raises and keeps ids unique. *)
Lemma mongo_add_messages_NoDup (messages coll : list Message) (added : nat) :
  Forall (λ d, _id d = Some (id d)) coll →
  NoDup (map id coll) →
  ∃ n coll', mongo_add_messages coll messages false added = (Ok n, coll')
             ∧ Forall (λ d, _id d = Some (id d)) coll'
             ∧ NoDup (map id coll').
Proof.
  revert coll added. induction messages as [|m rest IH]; intros coll added Hk Hnd;
    simpl; [by eauto|].
  destruct (find_one coll (id m)) as [t|] eqn:Hf; [by apply IH|].
  unfold insert_one. simpl. rewrite Hf.
  apply IH.
  - apply Forall_app. split; [done|]. by apply Forall_singleton.
  - rewrite ids_snoc. apply NoDup_snoc_ids; [done|].
    by apply find_one_None_ids.
Qed.

Lemma copies_snoc_fresh (l : list Message) (d : Message) :
  id d ∉ map id l →
  length (List.filter (λ x, id x =? id d) (l ++ [d])) = 1%nat.
Proof.
  intros Hd. rewrite List.filter_app, length_app. simpl. rewrite Z.eqb_refl. simpl.
  replace (List.filter (λ x, id x =? id d) l) with (@nil Message); [done|].
  symmetry. induction l as [|x l IH]; simpl in *; [done|].
  apply not_elem_of_cons in Hd as [Hx Hl].
  destruct (Z.eqb_spec (id x) (id d)); [congruence|]. auto.
Qed.

(** C6.  For a record whose id is not stored, two calls of
    [add_messages([r], all_new=False)] in a row return 1 and then 0, the
    second call changes nothing, and the store afterwards is the old store
    followed by one document for [r], the only one with that id. *)
Theorem add_messages_twice (a : Archive) (r : Message) :
  keyed a →
  id r ∉ ids a →
  ∃ a1, add_messages a [r] false = (Ok 1%nat, a1)
        ∧ add_messages a1 [r] false = (Ok 0%nat, a1)
        ∧ get_all_messages a1 = get_all_messages a ++ [stored a r]
        ∧ copies a1 (id r) = 1%nat.
Proof.
  intros Hk Hr. destruct a as [path db file|dbpath coll]; unfold ids in Hr;
    simpl in *.
  - exists (TinyDBArchive path (db ++ [r]) file).
    pose proof (proj2 (contains_false_ids db (id r)) Hr) as Hc.
    rewrite Hc. simpl. unfold insert.
    assert (Hc' : contains (db ++ [r]) (id r) = true).
    { apply contains_ids. rewrite ids_snoc. set_solver. }
    rewrite Hc'. simpl. repeat split.
    unfold copies. simpl. by apply copies_snoc_fresh.
  - exists (MongoMotorArchive dbpath (coll ++ [set__id r])).
    pose proof (proj2 (find_one_None_ids coll (id r) Hk) Hr) as Hf.
    rewrite Hf. unfold insert_one. simpl. rewrite Hf. simpl.
    assert (Hk' : Forall (λ d, _id d = Some (id d)) (coll ++ [set__id r])).
    { apply Forall_app. split; [done|]. by apply Forall_singleton. }
    assert (Hf' : is_Some (find_one (coll ++ [set__id r]) (id r))).
    { apply find_one_ids; [done|]. rewrite ids_snoc. simpl. set_solver. }
    destruct Hf' as [t Ht]. rewrite Ht. repeat split.
    unfold copies. simpl. by apply (copies_snoc_fresh coll (set__id r)).
Qed.

Lemma add_messages_twice_witness :
  (∃ a1, add_messages (TinyDBArchive "messages.json" [message 3] []) [message 5] false
         = (Ok 1%nat, a1)
         ∧ add_messages a1 [message 5] false = (Ok 0%nat, a1)
         ∧ get_all_messages a1 = [message 3; message 5]
         ∧ copies a1 5 = 1%nat)
  ∧ (∃ a1, add_messages (MongoMotorArchive "mongodb://localhost/discordArchiver"
                           [set__id (message 3)]) [message 5] false
           = (Ok 1%nat, a1)
           ∧ add_messages a1 [message 5] false = (Ok 0%nat, a1)
           ∧ get_all_messages a1 = [set__id (message 3); set__id (message 5)]
           ∧ copies a1 5 = 1%nat).
Proof.
  split.
  - apply (add_messages_twice (TinyDBArchive "messages.json" [message 3] [])
             (message 5)).
    + exact I.
    + apply (bool_decide_unpack _). vm_compute. reflexivity.
  - apply (add_messages_twice
             (MongoMotorArchive "mongodb://localhost/discordArchiver"
                [set__id (message 3)]) (message 5)).
    + repeat constructor.
    + apply (bool_decide_unpack _). vm_compute. reflexivity.
Defined.

(** C2 (as amended).  Adding a record whose id is already stored with
    [all_new=False] raises nothing, returns 0 and leaves the backend as it
    was, and a whole batch added with [all_new=False] keeps the ids of the
    store distinct.  With [all_new=True] the membership test is skipped:
    TinyDB appends the record, MongoDB raises the duplicate-key error of
    [insert_one]. *)
Theorem add_messages_existing_id (a : Archive) (r : Message) :
  keyed a →
  id r ∈ ids a →
  add_messages a [r] false = (Ok 0%nat, a)
  ∧ (∀ messages, NoDup (ids a) →
       ∃ n a', add_messages a messages false = (Ok n, a')
               ∧ keyed a' ∧ NoDup (ids a'))
  ∧ match a with
    | TinyDBArchive path db file =>
        add_messages a [r] true = (Ok 1%nat, TinyDBArchive path (db ++ [r]) file)
    | MongoMotorArchive _ _ =>
        add_messages a [r] true = (Raise (DuplicateKeyError (id r)), a)
    end.
Proof.
  intros Hk Hr. destruct a as [path db file|dbpath coll]; unfold ids in *;
    simpl in *.
  - pose proof (proj2 (contains_ids db (id r)) Hr) as Hc. rewrite Hc. simpl.
    split; [done|]. split; [|done].
    intros messages Hnd.
    pose proof (tinydb_add_messages_NoDup messages db 0 Hnd) as H.
    destruct (tinydb_add_messages db messages false 0) as [n db'].
    exists n, (TinyDBArchive path db' file). by simpl in *.
  - pose proof (proj2 (find_one_ids coll (id r) Hk) Hr) as [t Ht].
    rewrite Ht. split; [done|]. split.
    + intros messages Hnd.
      destruct (mongo_add_messages_NoDup messages coll 0 Hk Hnd)
        as (n & coll' & -> & Hk' & Hnd').
      exists n, (MongoMotorArchive dbpath coll'). by simpl.
    + unfold insert_one. simpl. by rewrite Ht.
Qed.

Lemma add_messages_existing_id_witness :
  add_messages (TinyDBArchive "messages.json" [message 3] []) [message 3] false
  = (Ok 0%nat, TinyDBArchive "messages.json" [message 3] [])
  ∧ add_messages (MongoMotorArchive "mongodb://localhost/discordArchiver"
                    [set__id (message 3)]) [message 3] false
    = (Ok 0%nat, MongoMotorArchive "mongodb://localhost/discordArchiver"
                   [set__id (message 3)]).
Proof.
  split.
  - apply (add_messages_existing_id
             (TinyDBArchive "messages.json" [message 3] []) (message 3)).
    + exact I.
    + apply (bool_decide_unpack _). vm_compute. reflexivity.
  - apply (add_messages_existing_id
             (MongoMotorArchive "mongodb://localhost/discordArchiver"
                [set__id (message 3)]) (message 3)).
    + repeat constructor.
    + apply (bool_decide_unpack _). vm_compute. reflexivity.
Defined.

(** C2 as stated fails for [all_new=True]: on a TinyDB store that holds
    record 3, adding record 3 again inserts a second copy and reports 1
    added; on a MongoDB store the same call raises. *)
Lemma add_messages_all_new_not_noop :
  3 ∈ ids (TinyDBArchive "messages.json" [message 3] [])
  ∧ add_messages (TinyDBArchive "messages.json" [message 3] []) [message 3] true
    = (Ok 1%nat, TinyDBArchive "messages.json" [message 3; message 3] [])
  ∧ ¬ NoDup (ids (TinyDBArchive "messages.json" [message 3; message 3] []))
  ∧ add_messages (MongoMotorArchive "mongodb://localhost/discordArchiver"
                    [set__id (message 3)]) [message 3] true
    = (Raise (DuplicateKeyError 3),
       MongoMotorArchive "mongodb://localhost/discordArchiver"
         [set__id (message 3)]).
Proof.
  split; [apply (bool_decide_unpack _); vm_compute; reflexivity|].
  split; [reflexivity|]. split; [|reflexivity].
  intros H. apply NoDup_cons in H as [H _]. apply H. simpl. left.
Qed.

(** ** Watermarks *)

Lemma compute_watermarks_latest (msg1 : Message) (messages : list Message) :
  (compute_watermarks msg1 messages).2
  = fold_left Z.max (map id messages) (id msg1).
Proof.
  unfold compute_watermarks, int. generalize (id msg1) at 1.
  generalize (id msg1). intros l o. revert l o.
  induction messages as [|m rest IH]; intros l o; simpl; [done|].
  apply IH.
Qed.

Lemma fold_left_max_init (l : list Z) (z : Z) : z ≤ fold_left Z.max l z.
Proof.
  revert z. induction l as [|y l IH]; intros z; simpl; [lia|].
  trans (Z.max z y); [lia|apply IH].
Qed.

Lemma fold_left_max_le (l : list Z) (z x : Z) :
  x = z ∨ x ∈ l → x ≤ fold_left Z.max l z.
Proof.
  intros [->|Hx]; [apply fold_left_max_init|].
  revert z. induction l as [|y l IH]; intros z; simpl.
  - by apply elem_of_nil in Hx.
  - apply elem_of_cons in Hx as [->|Hx]; [|by apply IH].
    trans (Z.max z y); [lia|apply fold_left_max_init].
Qed.

(** [latest_id] is the largest id seen, in whatever order. *)
Lemma compute_watermarks_latest_max (msg1 m : Message) (messages : list Message) :
  m ∈ msg1 :: messages → id m ≤ (compute_watermarks msg1 messages).2.
Proof.
  intros Hm. rewrite compute_watermarks_latest. apply fold_left_max_le.
  apply elem_of_cons in Hm as [->|Hm]; [by left|right].
  by apply list_elem_of_fmap_2.
Qed.

(** [oldest_id] only depends on the last message iterated and on [latest_id]
    before it. *)
Lemma compute_watermarks_oldest (msg1 m : Message) (messages : list Message) :
  (compute_watermarks msg1 (messages ++ [m])).1
  = Z.min (compute_watermarks msg1 messages).2 (id m).
Proof.
  unfold compute_watermarks. rewrite fold_left_app. simpl.
  destruct (fold_left watermark_step messages (int (id msg1), int (id msg1))).
  done.
Qed.

(** C1 (the code departs from it).  A TinyDB store holds the records of
    channel 10 in the order 7, 5, 3, 9, 8 (the order two runs of
    [archive_channel] leave them in, see below).  [archive_channel] takes 7
    as [msg1] and iterates the rest; the watermarks come out as
    [oldest_id = 8], [latest_id = 9], while the least stored id is 3.
    Enumerated as 9, 8, 7, 5, 3 the same records give [oldest_id = 3]. *)
Theorem compute_watermarks_oldest_id_not_min :
  get_messages (TinyDBArchive "messages.json" (map message [7; 5; 3; 9; 8]) [])
    Omitted (Obj (chan_id general))
  = message 7 :: map message [5; 3; 9; 8]
  ∧ compute_watermarks (message 7) (map message [5; 3; 9; 8]) = (8, 9)
  ∧ compute_watermarks (message 9) (map message [8; 7; 5; 3]) = (3, 9)
  ∧ foldr Z.min 7 [5; 3; 9; 8] = 3
  ∧ foldr Z.max 7 [5; 3; 9; 8] = 9.
Proof. repeat split. Qed.

(** ** Running [archive_channel] again *)

(** C3 (the code departs from it).  TinyDB backend, channel 10.  A first call
    archives the remote messages 7, 5, 3.  Messages 8 and 9 are posted; a
    second call archives them.  A third call follows with nothing new on the
    remote, whose messages all lie within the stored range 3..9: it computes
    [oldest_id = 8], fetches 7, 5, 3 again and inserts them a second time,
    returning 3.  *)
Theorem archive_channel_again_inserts :
  let before := map message [7; 5; 3] in
  let after := map message [9; 8; 7; 5; 3] in
  let r1 := archive_channel (serve before) 3 general started in
  let r2 := archive_channel (serve after) 3 general r1.2 in
  let r3 := archive_channel (serve after) 3 general r2.2 in
  (r1.1 = Ok 3%nat ∧ stored_ids r1.2 = [7; 5; 3])
  ∧ (r2.1 = Ok 2%nat ∧ stored_ids r2.2 = [7; 5; 3; 9; 8])
  ∧ (r3.1 = Ok 3%nat ∧ stored_ids r3.2 = [7; 5; 3; 9; 8; 7; 5; 3]).
Proof. vm_compute. repeat split. Qed.

(** The same defect with the stored range fixed before the first of two
    calls, for a remote that lists oldest first: both calls insert. *)
Lemma oldest_first_remote_inserts_twice :
  let history := map message [3; 5; 7; 9] in
  let w := set_archive (Some (TinyDBArchive "messages.json" history history))
             started in
  let r1 := archive_channel (serve history) 3 general w in
  let r2 := archive_channel (serve history) 3 general r1.2 in
  (r1.1 = Ok 2%nat ∧ stored_ids r1.2 = [3; 5; 7; 9; 3; 5])
  ∧ (r2.1 = Ok 1%nat ∧ stored_ids r2.2 = [3; 5; 7; 9; 3; 5; 3]).
Proof. vm_compute. repeat split. Qed.

(** ** Return paths of [archive_channel] *)

Lemma bind_Ok {A B} (m : M A) (k : A → M B) (w w' : World) (b : B) :
  (m ≫= k) w = (Ok b, w') →
  ∃ a w1, m w = (Ok a, w1) ∧ k a w1 = (Ok b, w').
Proof.
  unfold mbind, M_bind, bind. destruct (m w) as [[a| |] w1]; intros H;
    try discriminate. eauto.
Qed.

Lemma archive_flush_Ok (w w' : World) (u : ()) :
  archive_flush w = (Ok u, w') →
  ∃ a, self_archive w = Some a
       ∧ w' = emit Flush (set_archive (Some (flush a)) w).
Proof.
  unfold archive_flush, the_archive, mbind, M_bind, bind, gets, modify, mret,
    M_ret, ret, raise.
  destruct (self_archive w) as [a|]; simpl; intros H; [|discriminate].
  exists a. split; [done|]. congruence.
Qed.

Lemma flush_flush (a : Archive) : flush (flush a) = flush a.
Proof. by destruct a. Qed.

Lemma fill_Ok (request : Route → Outcome (list Message)) (fuel : nat)
    (channel : Channel) (added : nat) (oldest_id latest_id : Z)
    (w w' : World) (n : nat) :
  fill request fuel channel added oldest_id latest_id w = (Ok n, w') →
  ∃ a', self_archive w' = Some a' ∧ flush a' = a'
        ∧ last (trace w') = Some Flush.
Proof.
  unfold fill. intros H.
  apply bind_Ok in H as ([added1 latest1] & w1 & _ & H).
  apply bind_Ok in H as ([added2 oldest2] & w2 & _ & H).
  apply bind_Ok in H as ([] & w3 & Hf & H).
  unfold mret, M_ret, ret in H. simplify_eq.
  apply archive_flush_Ok in Hf as (a & Ha & ->).
  exists (flush a). simpl. split; [done|]. split; [apply flush_flush|].
  apply last_snoc.
Qed.

(** C7.  With nothing stored for the channel and an empty first page,
    [archive_channel] returns 0; the world afterwards is the one before with
    the request appended to the trace, so the backend and what it stores,
    the files and the databases are what they were. *)
Theorem archive_channel_empty (request : Route → Outcome (list Message))
    (fuel : nat) (channel : Channel) (w : World) (a : Archive) :
  self_archive w = Some a →
  get_messages a Omitted (Obj (chan_id channel)) = [] →
  request (latest_page channel) = Ok [] →
  archive_channel request fuel channel w
  = (Ok 0%nat, emit (Request (latest_page channel)) w)
  ∧ self_archive (archive_channel request fuel channel w).2 = Some a
  ∧ files (archive_channel request fuel channel w).2 = files w
  ∧ databases (archive_channel request fuel channel w).2 = databases w.
Proof.
  intros Ha Hg Hr.
  assert (H : archive_channel request fuel channel w
              = (Ok 0%nat, emit (Request (latest_page channel)) w)).
  { unfold archive_channel, the_archive, mbind, M_bind, bind, gets. simpl.
    rewrite Ha. simpl. rewrite Hg.
    unfold _fetch_messages, mbind, M_bind, bind, modify, lift. simpl.
    fold (latest_page channel). by rewrite Hr. }
  rewrite H. simpl. done.
Qed.

Lemma archive_channel_empty_witness :
  archive_channel (serve []) 3 general started
  = (Ok 0%nat, emit (Request (latest_page general)) started).
Proof.
  apply (archive_channel_empty (serve []) 3 general started
           (TinyDBArchive "data/archiver/messages.json" [] []));
    reflexivity.
Defined.

(** C4 (as amended).  When [archive_channel] returns, either the backend has
    just been flushed (the flush is the last call made, and flushing again
    would change nothing), or the channel had nothing stored and the first
    page was empty: then 0 is returned at once and nothing but the request
    has happened. *)
Theorem archive_channel_flushes (request : Route → Outcome (list Message))
    (fuel : nat) (channel : Channel) (w w' : World) (n : nat) :
  archive_channel request fuel channel w = (Ok n, w') →
  (∃ a', self_archive w' = Some a' ∧ flush a' = a'
         ∧ last (trace w') = Some Flush)
  ∨ (n = 0%nat
     ∧ (∃ a, self_archive w = Some a
             ∧ get_messages a Omitted (Obj (chan_id channel)) = [])
     ∧ request (latest_page channel) = Ok []
     ∧ w' = emit (Request (latest_page channel)) w).
Proof.
  unfold archive_channel. intros H.
  apply bind_Ok in H as (a & w1 & Ha & H).
  assert (self_archive w = Some a ∧ w1 = w) as [Ha' ->].
  { revert Ha. unfold the_archive, mbind, M_bind, bind, gets, mret, M_ret, ret,
      raise.
    destruct (self_archive w); simpl; intros Ha; [|discriminate].
    split; congruence. }
  destruct (get_messages a Omitted (Obj (chan_id channel)))
    as [|msg1 messages] eqn:Hg.
  - apply bind_Ok in H as (page & w2 & Hf & H).
    unfold _fetch_messages in Hf. apply bind_Ok in Hf as ([] & w3 & Hm & Hl).
    unfold modify, lift in *. simplify_eq. fold (latest_page channel) in *.
    destruct page as [|msg1 page].
    + right. unfold mret, M_ret, ret in H. simplify_eq. eauto 10.
    + left. apply bind_Ok in H as (k & w4 & _ & H).
      destruct (compute_watermarks msg1 (msg1 :: page)) as [o l].
      by eapply fill_Ok.
  - left. destruct (compute_watermarks msg1 messages) as [o l].
    by eapply fill_Ok.
Qed.

Lemma archive_channel_flushes_witness :
  (∃ a', self_archive
           (archive_channel (serve (map message [7; 5; 3])) 3 general started).2
         = Some a'
         ∧ flush a' = a'
         ∧ last (trace
             (archive_channel (serve (map message [7; 5; 3])) 3 general started).2)
           = Some Flush)
  ∨ (3%nat = 0%nat
     ∧ (∃ a, self_archive started = Some a
             ∧ get_messages a Omitted (Obj (chan_id general)) = [])
     ∧ serve (map message [7; 5; 3]) (latest_page general) = Ok []
     ∧ (archive_channel (serve (map message [7; 5; 3])) 3 general started).2
       = emit (Request (latest_page general)) started).
Proof.
  apply (archive_channel_flushes (serve (map message [7; 5; 3])) 3 general
           started _ 3%nat).
  vm_compute. reflexivity.
Defined.

(** C4 as stated fails on the early return.  A call on channel 11 stores a
    first page and is cut short by the remote, so the TinyDB table holds two
    records its file does not.  A call on the empty channel 10 then returns 0
    and leaves table and file apart: no flush was called. *)
Lemma early_return_skips_flush :
  (archive_channel (serve_once chatter) 3 random started).1
  = Raise (HTTPException 502)
  ∧ self_archive interrupted
    = Some (TinyDBArchive "data/archiver/messages.json" chatter [])
  ∧ (archive_channel (serve []) 3 general interrupted).1 = Ok 0%nat
  ∧ self_archive (archive_channel (serve []) 3 general interrupted).2
    = Some (TinyDBArchive "data/archiver/messages.json" chatter [])
  ∧ flush (TinyDBArchive "data/archiver/messages.json" chatter [])
    ≠ TinyDBArchive "data/archiver/messages.json" chatter []
  ∧ Flush ∉ trace (archive_channel (serve []) 3 general interrupted).2.
Proof.
  split; [by vm_compute|]. split; [by vm_compute|]. split; [by vm_compute|].
  split; [by vm_compute|]. split; [discriminate|].
  assert (Ht : trace (archive_channel (serve []) 3 general interrupted).2
               = [Dump DEFAULT_CONFIG; Request (latest_page random);
                  Request {| route_channel := 11; route_limit := 100;
                             route_before := None; route_after := Some 4 |};
                  Request (latest_page general)]).
  { by vm_compute. }
  rewrite Ht. intros H. repeat (apply elem_of_cons in H as [H|H]; [discriminate|]).
  by apply elem_of_nil in H.
Qed.

(** ** Configuration *)

Lemma _load_config_eq (w : World) :
  _load_config w = (Ok (), set_config (merged (config_file w)) w).
Proof.
  unfold _load_config, mbind, M_bind, bind, modify, gets, mret, M_ret, ret. simpl.
  destruct (config_file w); done.
Qed.

Lemma _save_config_eq (w : World) :
  _save_config w
  = (Ok (), emit (Dump (self_config w))
              (set_config_file (Some (self_config w)) w)).
Proof. done. Qed.

Lemma setdefault_subseteq (config : gmap string Value) (key : string)
    (d : Value) :
  config ⊆ <[key := default d (config !! key)]> config.
Proof.
  destruct (config !! key) as [v|] eqn:Hk; simpl.
  - by rewrite insert_id.
  - by apply insert_subseteq.
Qed.

(** [_make_backend] leaves the config file and the trace alone, and only ever
    adds to the configuration in memory. *)
Lemma _make_backend_frame (TinyDB Motor : bool) (w : World) :
  config_file (_make_backend TinyDB Motor w).2 = config_file w
  ∧ trace (_make_backend TinyDB Motor w).2 = trace w
  ∧ self_config w ⊆ self_config (_make_backend TinyDB Motor w).2.
Proof.
  unfold _make_backend, construct, getitem, at_rest, close.
  unfold mbind, M_bind, bind, gets, modify, mret, M_ret, ret, raise. simpl.
  repeat case_match; simplify_eq; simpl in *;
    (split; [done|split; [done|]]); try done;
    try match goal with H : default _ _ = _ |- _ => rewrite <- H end;
    apply setdefault_subseteq.
Qed.

Lemma at_rest_frame (a : option Archive) (w : World) :
  config_file (at_rest a w) = config_file w ∧ trace (at_rest a w) = trace w.
Proof. by destruct a as [[]|]. Qed.

Lemma __init___eq (TinyDB Motor : bool) (w : World) :
  __init__ TinyDB Motor w
  = _make_backend TinyDB Motor
      (emit (Dump (merged (config_file w)))
         (set_config_file (Some (merged (config_file w)))
            (set_config (merged (config_file w))
               (set_archive None (at_rest (self_archive w) w))))).
Proof.
  unfold __init__, mbind, M_bind, bind, gets, modify.
  rewrite _load_config_eq, _save_config_eq. simpl.
  by rewrite (proj1 (at_rest_frame _ _)).
Qed.

Lemma reload_eq (TinyDB Motor : bool) (value : option string) (w : World) :
  _archive_config TinyDB Motor (Some "reload") value w
  = _make_backend TinyDB Motor (set_config (merged (config_file w)) w).
Proof.
  unfold _archive_config. simpl. unfold mbind, M_bind, bind.
  by rewrite _load_config_eq.
Qed.

(** With no backend object yet and no path configured for the selected
    backend, [_make_backend] succeeds and records the default path. *)
Lemma _make_backend_fresh (TinyDB Motor : bool) (w : World) (b d : string)
    (cls : BackendClass) :
  self_archive w = None →
  self_config w !! "backend" = Some (VStr b) →
  self_config w !! (b +:+ "_path") = None →
  DEFAULT_PATH TinyDB Motor !! b = Some d →
  archive_backends TinyDB Motor !! b = Some cls →
  _make_backend TinyDB Motor w
  = (Ok (), set_archive (Some (opened cls d w))
              (set_config (<[b +:+ "_path" := VStr d]> (self_config w)) w)).
Proof.
  intros Ha Hb Hp Hd Hc.
  unfold _make_backend, construct, getitem, at_rest, close.
  unfold mbind, M_bind, bind, gets, modify, mret, M_ret, ret, raise. simpl.
  rewrite Ha, Hb, Hd, Hp, Hc. simpl. rewrite Ha. by destruct cls.
Qed.

Lemma merged_lookup (file : option (gmap string Value)) (k : string) :
  merged file !! k
  = match file with
    | Some f => match f !! k with Some v => Some v | None => DEFAULT_CONFIG !! k end
    | None => DEFAULT_CONFIG !! k
    end.
Proof.
  destruct file as [f|]; simpl; [|done].
  rewrite lookup_union. destruct (f !! k), (DEFAULT_CONFIG !! k); done.
Qed.

(** C5 (as amended).  Loading puts in memory the entries of the config file
    together with the defaults for the keys the file lacks.  [__init__] then
    writes exactly that to the config file, as the first thing it does after
    the load; the reload command keeps it in memory and rebuilds the backend,
    and neither writes the config file nor changes it. *)
Theorem load_merges_init_saves (TinyDB Motor : bool) (w : World)
    (value : option string) :
  (∀ k, merged (config_file w) !! k
        = match config_file w with
          | Some f =>
              match f !! k with Some v => Some v | None => DEFAULT_CONFIG !! k end
          | None => DEFAULT_CONFIG !! k
          end)
  ∧ self_config (_load_config w).2 = merged (config_file w)
  ∧ merged (config_file w) ⊆ self_config (__init__ TinyDB Motor w).2
  ∧ config_file (__init__ TinyDB Motor w).2 = Some (merged (config_file w))
  ∧ trace (__init__ TinyDB Motor w).2
    = trace w ++ [Dump (merged (config_file w))]
  ∧ merged (config_file w)
    ⊆ self_config (_archive_config TinyDB Motor (Some "reload") value w).2
  ∧ config_file (_archive_config TinyDB Motor (Some "reload") value w).2
    = config_file w
  ∧ trace (_archive_config TinyDB Motor (Some "reload") value w).2 = trace w.
Proof.
  split; [intros k; apply merged_lookup|].
  split; [by rewrite _load_config_eq|].
  rewrite __init___eq, reload_eq.
  pose proof (_make_backend_frame TinyDB Motor
    (emit (Dump (merged (config_file w)))
       (set_config_file (Some (merged (config_file w)))
          (set_config (merged (config_file w))
             (set_archive None (at_rest (self_archive w) w))))))
    as (Hf & Ht & Hc).
  pose proof (_make_backend_frame TinyDB Motor
    (set_config (merged (config_file w)) w)) as (Hf' & Ht' & Hc').
  simpl in *. rewrite Hf, Ht, Hf', Ht'.
  rewrite (proj2 (at_rest_frame _ _)). done.
Qed.

(** C5 as stated fails for the reload command.  The config file holds only
    the backend entry; after [archive config reload] the configuration in
    memory has the default for [watch], and the file is what it was. *)
Lemma reload_does_not_save :
  (_archive_config true false (Some "reload") None edited).1 = Ok ()
  ∧ self_config (_archive_config true false (Some "reload") None edited).2
    !! "watch" = Some (VBool false)
  ∧ config_file edited = Some {["backend" := VStr "TinyDB"]}
  ∧ config_file (_archive_config true false (Some "reload") None edited).2
    = Some {["backend" := VStr "TinyDB"]}
  ∧ config_file (_archive_config true false (Some "reload") None edited).2
    ≠ Some (merged (config_file edited))
  ∧ trace (_archive_config true false (Some "reload") None edited).2
    = trace edited.
Proof.
  split; [by vm_compute|]. split; [by vm_compute|]. split; [by vm_compute|].
  split; [by vm_compute|]. split; [|by vm_compute].
  intros H. apply (f_equal (λ c, c ≫= (.!! "watch"))) in H.
  vm_compute in H. discriminate.
Qed.

(** C9.  Setting [backend] to a name that is not a key of
    [archive_backends] only makes the bot say so: the configuration in
    memory, the config file, the backend object and the stores at rest are
    what they were, and nothing is dumped. *)
Theorem config_unknown_backend_rejected (TinyDB Motor : bool) (w : World)
    (value : string) :
  archive_backends TinyDB Motor !! value = None →
  _archive_config TinyDB Motor (Some "backend") (Some value) w
  = (Ok (), emit (Say (SayNotInstalled value)) w)
  ∧ self_config (_archive_config TinyDB Motor (Some "backend") (Some value) w).2
    = self_config w
  ∧ config_file (_archive_config TinyDB Motor (Some "backend") (Some value) w).2
    = config_file w
  ∧ self_archive (_archive_config TinyDB Motor (Some "backend") (Some value) w).2
    = self_archive w.
Proof.
  intros Hv.
  assert (H : _archive_config TinyDB Motor (Some "backend") (Some value) w
              = (Ok (), emit (Say (SayNotInstalled value)) w)).
  { unfold _archive_config. simpl. rewrite Hv.
    rewrite bool_decide_eq_false_2; [done|]. by intros [? ?]. }
  rewrite H. done.
Qed.

Lemma config_unknown_backend_rejected_witness :
  _archive_config true false (Some "backend") (Some "MongoDB") started
  = (Ok (), emit (Say (SayNotInstalled "MongoDB")) started).
Proof.
  apply (config_unknown_backend_rejected true false started "MongoDB").
  reflexivity.
Defined.

(** C10.  Started where no config file exists (and TinyDB can be imported),
    [__init__] succeeds with the TinyDB backend at its default path; the
    configuration in memory then has the key [TinyDB_path] with that path,
    while the config file, written once before [_make_backend] ran, holds the
    defaults alone, which have no such key.  [_make_backend] never writes
    the config file. *)
Theorem init_path_key_only_in_memory (Motor : bool) (w : World) :
  config_file w = None →
  (__init__ true Motor w).1 = Ok ()
  ∧ self_config (__init__ true Motor w).2 !! "backend" = Some (VStr "TinyDB")
  ∧ self_config (__init__ true Motor w).2 !! "TinyDB_path"
    = Some (VStr "data/archiver/messages.json")
  ∧ (∃ db file, self_archive (__init__ true Motor w).2
                = Some (TinyDBArchive "data/archiver/messages.json" db file))
  ∧ config_file (__init__ true Motor w).2 = Some DEFAULT_CONFIG
  ∧ DEFAULT_CONFIG !! "TinyDB_path" = None
  ∧ trace (__init__ true Motor w).2 = trace w ++ [Dump DEFAULT_CONFIG]
  ∧ (∀ TinyDB w0,
       config_file (_make_backend TinyDB Motor w0).2 = config_file w0
       ∧ trace (_make_backend TinyDB Motor w0).2 = trace w0).
Proof.
  intros Hf. rewrite __init___eq, Hf. simpl.
  rewrite (_make_backend_fresh true Motor _ "TinyDB"
             "data/archiver/messages.json" TinyDBArchive_cls);
    [|done|done|done|by destruct Motor|by destruct Motor].
  simpl. rewrite (proj2 (at_rest_frame _ _)).
  repeat split; try done.
  - eauto.
  - apply _make_backend_frame.
  - apply _make_backend_frame.
Qed.

Lemma init_path_key_only_in_memory_witness :
  (__init__ true false nothing).1 = Ok ()
  ∧ self_config (__init__ true false nothing).2 !! "backend"
    = Some (VStr "TinyDB")
  ∧ self_config (__init__ true false nothing).2 !! "TinyDB_path"
    = Some (VStr "data/archiver/messages.json").
Proof.
  pose proof (init_path_key_only_in_memory false nothing eq_refl)
    as (H1 & H2 & H3 & _).
  exact (conj H1 (conj H2 H3)).
Defined.

(** ** Termination of the two loops *)

Lemma get_new_messages_S (request : Route → Outcome (list Message))
    (fuel : nat) (channel : Channel) (added : nat) (latest_id : Z) (w : World) :
  get_new_messages request (S fuel) channel added latest_id w
  = match request (newer channel latest_id) with
    | Ok [] => (Ok (added, latest_id), emit (Request (newer channel latest_id)) w)
    | Ok messages =>
        match archive_add_messages messages true
                (emit (Request (newer channel latest_id)) w) with
        | (Ok n, w') =>
            get_new_messages request fuel channel (added + n)
              (fold_left (λ l msg, Z.max l (int (id msg))) messages latest_id) w'
        | (Raise e, w') => (Raise e, w')
        | (OutOfFuel, w') => (OutOfFuel, w')
        end
    | Raise e => (Raise e, emit (Request (newer channel latest_id)) w)
    | OutOfFuel => (OutOfFuel, emit (Request (newer channel latest_id)) w)
    end.
Proof.
  unfold newer. simpl.
  unfold _fetch_messages, mbind, M_bind, bind, modify, lift. simpl.
  destruct (request _) as [[|m page]| |]; done.
Qed.

Lemma get_old_messages_S (request : Route → Outcome (list Message))
    (fuel : nat) (channel : Channel) (added : nat) (oldest_id : Z) (w : World) :
  get_old_messages request (S fuel) channel added oldest_id w
  = match request (older channel oldest_id) with
    | Ok [] => (Ok (added, oldest_id), emit (Request (older channel oldest_id)) w)
    | Ok messages =>
        match archive_add_messages messages true
                (emit (Request (older channel oldest_id)) w) with
        | (Ok n, w') =>
            get_old_messages request fuel channel (added + n)
              (fold_left (λ o msg, Z.min o (int (id msg))) messages oldest_id) w'
        | (Raise e, w') => (Raise e, w')
        | (OutOfFuel, w') => (OutOfFuel, w')
        end
    | Raise e => (Raise e, emit (Request (older channel oldest_id)) w)
    | OutOfFuel => (OutOfFuel, emit (Request (older channel oldest_id)) w)
    end.
Proof.
  unfold older. simpl.
  unfold _fetch_messages, mbind, M_bind, bind, modify, lift. simpl.
  destruct (request _) as [[|m page]| |]; done.
Qed.

Lemma mongo_add_messages_fuel (messages coll : list Message) (all_new : bool)
    (added : nat) :
  (mongo_add_messages coll messages all_new added).1 ≠ OutOfFuel.
Proof.
  revert coll added. induction messages as [|m rest IH]; intros coll added;
    simpl; [done|].
  unfold insert_one. simpl.
  destruct all_new; repeat case_match; simplify_eq; simpl; try done; apply IH.
Qed.

Lemma archive_add_messages_fuel (messages : list Message) (all_new : bool)
    (w : World) :
  (archive_add_messages messages all_new w).1 ≠ OutOfFuel.
Proof.
  unfold archive_add_messages, the_archive, add_messages.
  unfold mbind, M_bind, bind, gets, modify, lift, mret, M_ret, ret, raise. simpl.
  destruct (self_archive w) as [[path db file|dbpath coll]|]; simpl; [| |done].
  - by destruct (tinydb_add_messages db messages all_new 0).
  - pose proof (mongo_add_messages_fuel messages coll all_new 0) as H.
    destruct (mongo_add_messages coll messages all_new 0) as [[]]; done.
Qed.


Lemma filter_length_mono (P Q : Message → bool) (l : list Message) :
  (∀ m, Q m = true → P m = true) →
  (length (List.filter Q l) ≤ length (List.filter P l))%nat.
Proof.
  intros HQP. induction l as [|y l IH]; simpl; [done|].
  destruct (Q y) eqn:HQ; [rewrite (HQP _ HQ); simpl; lia|].
  destruct (P y); simpl; lia.
Qed.

Lemma filter_length_lt (P Q : Message → bool) (l : list Message) (x : Message) :
  (∀ m, Q m = true → P m = true) →
  x ∈ l → P x = true → Q x = false →
  (length (List.filter Q l) < length (List.filter P l))%nat.
Proof.
  intros HQP Hx HP HQ. induction l as [|y l IH]; [by apply elem_of_nil in Hx|].
  simpl. apply elem_of_cons in Hx as [<-|Hx].
  - rewrite HP, HQ. simpl. pose proof (filter_length_mono P Q l HQP). lia.
  - specialize (IH Hx). destruct (Q y) eqn:HQy; [rewrite (HQP _ HQy); simpl; lia|].
    destruct (P y); simpl; lia.
Qed.

Lemma pending_le_length (history : list Message) (r : Route) :
  (pending history r ≤ length history)%nat.
Proof. unfold pending. apply List.filter_length_le. Qed.

Lemma fold_max_ids (messages : list Message) (z : Z) :
  fold_left (λ l msg, Z.max l (int (id msg))) messages z
  = fold_left Z.max (map id messages) z.
Proof. revert z. induction messages as [|m l IH]; intros z; simpl; [done|apply IH]. Qed.

Lemma fold_left_min_init (l : list Z) (z : Z) : fold_left Z.min l z ≤ z.
Proof.
  revert z. induction l as [|y l IH]; intros z; simpl; [lia|].
  trans (Z.min z y); [apply IH|lia].
Qed.

Lemma fold_left_min_le (l : list Z) (z x : Z) :
  x ∈ l → fold_left Z.min l z ≤ x.
Proof.
  revert z. induction l as [|y l IH]; intros z Hx; simpl.
  - by apply elem_of_nil in Hx.
  - apply elem_of_cons in Hx as [->|Hx]; [|by apply IH].
    trans (Z.min z y); [apply fold_left_min_init|lia].
Qed.

Lemma fold_left_min_pos (l : list Z) (z : Z) :
  0 < z → Forall (λ x, 0 < x) l → 0 < fold_left Z.min l z.
Proof.
  intros Hz Hl. revert z Hz. induction Hl as [|y l Hy Hl IH]; intros z Hz; simpl;
    [done|]. apply IH. lia.
Qed.

Lemma fold_min_ids (messages : list Message) (z : Z) :
  fold_left (λ o msg, Z.min o (int (id msg))) messages z
  = fold_left Z.min (map id messages) z.
Proof. revert z. induction messages as [|m l IH]; intros z; simpl; [done|apply IH]. Qed.

Lemma serve_page (history : list Message) (r : Route) (m : Message)
    (page : list Message) :
  route_limit r = 100 →
  serve history r = Ok (m :: page) →
  Forall (λ x, x ∈ history ∧ in_range r x = true) (m :: page).
Proof.
  unfold serve. intros -> [= H]. apply Forall_forall. intros x Hx.
  rewrite <- H in Hx. apply elem_of_take in Hx as (i & Hx & _).
  apply list_elem_of_lookup_2 in Hx. apply list_elem_of_In, filter_In in Hx.
  by rewrite list_elem_of_In.
Qed.

Lemma serve_outcome (history : list Message) (r : Route) :
  ∃ page, serve history r = Ok page.
Proof. unfold serve. eauto. Qed.

Lemma truthy_pos (z : Z) : 0 < z → truthy z = true.
Proof. unfold truthy. intros Hz. destruct (Z.eqb_spec z 0); [lia|done]. Qed.

(** The forward loop stops: every page moves [latest_id] past at least one
    message of the history. *)
Lemma get_new_messages_terminates (history : list Message) (channel : Channel)
    (fuel : nat) :
  ∀ (added : nat) (latest_id : Z) (w : World),
    0 < latest_id →
    (pending history (newer channel latest_id) < fuel)%nat →
    (get_new_messages (serve history) fuel channel added latest_id w).1
    ≠ OutOfFuel.
Proof.
  induction fuel as [|fuel IH]; intros added latest_id w Hpos Hfuel; [lia|].
  rewrite get_new_messages_S.
  destruct (serve history (newer channel latest_id)) as [[|m page]| |] eqn:Hs;
    try done.
  - pose proof (archive_add_messages_fuel (m :: page) true
      (emit (Request (newer channel latest_id)) w)) as Hadd.
    destruct (archive_add_messages _ _ _) as [[n| |] w']; try done.
    apply serve_page in Hs as Hpage; [|done].
    set (latest' := fold_left (λ l msg, Z.max l (int (id msg))) (m :: page)
                      latest_id).
    assert (Hle : latest_id ≤ latest').
    { unfold latest'. rewrite fold_max_ids. apply fold_left_max_init. }
    assert (Hm : id m ≤ latest').
    { unfold latest'. rewrite fold_max_ids. apply fold_left_max_le. right.
      simpl. left. }
    apply IH; [lia|].
    apply Forall_cons in Hpage as [[Hmh Hmr] _].
    assert (pending history (newer channel latest')
            < pending history (newer channel latest_id))%nat; [|lia].
    unfold pending. apply (filter_length_lt _ _ _ m); [|done|done|].
    + intros x. unfold in_range, newer. simpl.
      rewrite (truthy_pos latest_id), (truthy_pos latest') by lia.
      rewrite !andb_true_iff, !Z.ltb_lt. intros [[? ?] ?].
      repeat split; try done. lia.
    + unfold in_range, newer. simpl. rewrite (truthy_pos latest') by lia.
      rewrite !andb_false_iff, Z.ltb_ge. right. done.
Qed.

(** The backward loop stops likewise. *)
Lemma get_old_messages_terminates (history : list Message) (channel : Channel)
    (fuel : nat) :
  Forall (λ m, 0 < id m) history →
  ∀ (added : nat) (oldest_id : Z) (w : World),
    0 < oldest_id →
    (pending history (older channel oldest_id) < fuel)%nat →
    (get_old_messages (serve history) fuel channel added oldest_id w).1
    ≠ OutOfFuel.
Proof.
  intros Hhist.
  induction fuel as [|fuel IH]; intros added oldest_id w Hpos Hfuel; [lia|].
  rewrite get_old_messages_S.
  destruct (serve history (older channel oldest_id)) as [[|m page]| |] eqn:Hs;
    try done.
  pose proof (archive_add_messages_fuel (m :: page) true
    (emit (Request (older channel oldest_id)) w)) as Hadd.
  destruct (archive_add_messages _ _ _) as [[n| |] w']; try done.
  apply serve_page in Hs as Hpage; [|done].
  set (oldest' := fold_left (λ o msg, Z.min o (int (id msg))) (m :: page)
                    oldest_id).
  assert (Hle : oldest' ≤ oldest_id).
  { unfold oldest'. rewrite fold_min_ids. apply fold_left_min_init. }
  assert (Hm : oldest' ≤ id m).
  { unfold oldest'. rewrite fold_min_ids. apply fold_left_min_le. simpl. left. }
  assert (Hpos' : 0 < oldest').
  { unfold oldest'. rewrite fold_min_ids. apply fold_left_min_pos; [done|].
    apply Forall_fmap. eapply Forall_impl; [exact Hpage|]. simpl.
    intros x [Hx _]. by apply (proj1 (Forall_forall _ _) Hhist). }
  apply IH; [done|].
  apply Forall_cons in Hpage as [[Hmh Hmr] _].
  assert (pending history (older channel oldest')
          < pending history (older channel oldest_id))%nat; [|lia].
  unfold pending. apply (filter_length_lt _ _ _ m); [|done|done|].
  - intros x. unfold in_range, older. simpl.
    rewrite (truthy_pos oldest_id), (truthy_pos oldest') by lia.
    rewrite !andb_true_iff, !Z.ltb_lt. intros [[? ?] ?].
    repeat split; try done. lia.
  - unfold in_range, older. simpl. rewrite (truthy_pos oldest') by lia.
    rewrite !andb_false_iff, Z.ltb_ge. left. right. done.
Qed.

Lemma archive_flush_fuel (w : World) : (archive_flush w).1 ≠ OutOfFuel.
Proof.
  unfold archive_flush, the_archive.
  unfold mbind, M_bind, bind, gets, modify, mret, M_ret, ret, raise. simpl.
  by destruct (self_archive w).
Qed.

Lemma fill_terminates (history : list Message) (channel : Channel)
    (fuel added : nat) (oldest_id latest_id : Z) (w : World) :
  Forall (λ m, 0 < id m) history →
  0 < oldest_id → 0 < latest_id →
  (length history < fuel)%nat →
  (fill (serve history) fuel channel added oldest_id latest_id w).1 ≠ OutOfFuel.
Proof.
  intros Hhist Ho Hl Hfuel. unfold fill, mbind, M_bind, bind.
  pose proof (get_new_messages_terminates history channel fuel added latest_id
                w Hl) as Hnew.
  destruct (get_new_messages _ _ _ _ _ _) as [[[added1 latest1]| |] w1]; simpl in *;
    [|done|].
  - pose proof (get_old_messages_terminates history channel fuel Hhist added1
                  oldest_id w1 Ho) as Hold.
    destruct (get_old_messages _ _ _ _ _ _) as [[[added2 oldest2]| |] w2];
      simpl in *; [|done|].
    + pose proof (archive_flush_fuel w2) as Hf.
      destruct (archive_flush w2) as [[[]| |] w3]; done.
    + exfalso. apply Hold; [|done].
      pose proof (pending_le_length history (older channel oldest_id)). lia.
  - exfalso. apply Hnew; [|done].
    pose proof (pending_le_length history (newer channel latest_id)). lia.
Qed.

Lemma compute_watermarks_pos (msg1 : Message) (messages : list Message) :
  0 < id msg1 →
  Forall (λ m, 0 < id m) messages →
  0 < (compute_watermarks msg1 messages).1
  ∧ 0 < (compute_watermarks msg1 messages).2.
Proof.
  intros H1 Hm. unfold compute_watermarks, int.
  assert (Hinv : ∀ p : Z * Z, 0 < p.1 → 0 < p.2 →
            0 < (fold_left watermark_step messages p).1
            ∧ 0 < (fold_left watermark_step messages p).2).
  { induction Hm as [|m l Hmpos Hl IH]; intros [o la] Ho Hla; simpl in *; [done|].
    apply IH; simpl; unfold int; lia. }
  by apply Hinv.
Qed.

Lemma get_messages_sublist (a : Archive) (user channel : Ref) (m : Message) :
  m ∈ get_messages a user channel → m ∈ get_all_messages a.
Proof.
  unfold get_messages. rewrite get_messages_loop_filter.
  rewrite !list_elem_of_In, filter_In. tauto.
Qed.

Lemma bind_eq {A B} (m : M A) (k : A → M B) (w : World) :
  (m ≫= k) w
  = match m w with
    | (Ok a, w') => k a w'
    | (Raise e, w') => (Raise e, w')
    | (OutOfFuel, w') => (OutOfFuel, w')
    end.
Proof. done. Qed.

Lemma the_archive_eq (w : World) :
  the_archive w
  = match self_archive w with
    | Some a => (Ok a, w)
    | None => (Raise (AttributeError "archive"), w)
    end.
Proof. unfold the_archive. rewrite bind_eq. simpl. by destruct (self_archive w). Qed.

Lemma _fetch_messages_eq (request : Route → Outcome (list Message))
    (channel : Channel) (limit : Z) (before after : option Z) (w : World) :
  _fetch_messages request channel limit before after w
  = (request (mkRoute (chan_id channel) limit (if_set before) (if_set after)),
     emit (Request (mkRoute (chan_id channel) limit (if_set before)
                      (if_set after))) w).
Proof. done. Qed.

(** X21.  Against a remote that serves a finite history of positive ids, and with
    positive ids in the store, [archive_channel] comes to an end (a result
    or an exception) within [length history] pages in each direction. *)
Theorem archive_channel_terminates (history : list Message)
    (channel : Channel) (fuel : nat) (w : World) :
  Forall (λ m, 0 < id m) history →
  (∀ a, self_archive w = Some a → Forall (λ m, 0 < id m) (get_all_messages a)) →
  (length history < fuel)%nat →
  (archive_channel (serve history) fuel channel w).1 ≠ OutOfFuel.
Proof.
  intros Hhist Hstore Hfuel. unfold archive_channel.
  rewrite bind_eq, the_archive_eq.
  destruct (self_archive w) as [a|] eqn:Ha; [|done].
  specialize (Hstore a eq_refl).
  destruct (get_messages a Omitted (Obj (chan_id channel)))
    as [|msg1 messages] eqn:Hg.
  - rewrite bind_eq, _fetch_messages_eq. simpl if_set.
    fold (latest_page channel).
    destruct (serve history (latest_page channel)) as [[|m page]| |] eqn:Hs;
      try done.
    rewrite bind_eq.
    pose proof (archive_add_messages_fuel (m :: page) true
      (emit (Request (latest_page channel)) w)) as Hadd.
    destruct (archive_add_messages _ _ _) as [[n| |] w']; try done.
    apply serve_page in Hs as Hpage; [|done].
    assert (Hpos : Forall (λ x, 0 < id x) (m :: page)).
    { eapply Forall_impl; [exact Hpage|]. simpl. intros x [Hx _].
      by apply (proj1 (Forall_forall _ _) Hhist). }
    pose proof (compute_watermarks_pos m (m :: page)
                  (Forall_inv Hpos) Hpos) as [Ho Hl].
    destruct (compute_watermarks m (m :: page)) as [o l].
    by apply fill_terminates.
  - assert (Hpos : Forall (λ x, 0 < id x) (msg1 :: messages)).
    { apply Forall_forall. intros x Hx. rewrite <- Hg in Hx.
      apply get_messages_sublist in Hx.
      by apply (proj1 (Forall_forall _ _) Hstore). }
    pose proof (compute_watermarks_pos msg1 messages (Forall_inv Hpos)
                  (Forall_inv_tail Hpos)) as [Ho Hl].
    destruct (compute_watermarks msg1 messages) as [o l].
    by apply fill_terminates.
Qed.

(** ** What [add_messages] does to the store *)

Lemma tinydb_add_messages_appends (messages db : list Message) (all_new : bool)
    (added : nat) :
  ∃ new, (tinydb_add_messages db messages all_new added).2 = db ++ new
         ∧ (tinydb_add_messages db messages all_new added).1
           = (added + length new)%nat
         ∧ Forall (λ d, d ∈ messages) new.
Proof.
  revert db added. induction messages as [|msg rest IH]; intros db added; simpl.
  - exists []. by rewrite app_nil_r, Nat.add_0_r.
  - destruct (all_new || negb (contains db (id msg))).
    + destruct (IH (insert db msg) (S added)) as (new & H2 & H1 & Hnew).
      exists (msg :: new). rewrite H2, H1. unfold insert.
      rewrite <- app_assoc. simpl.
      split; [done|]. split; [lia|].
      constructor; [left|]. eapply Forall_impl; [exact Hnew|].
      intros d Hd. by right.
    + destruct (IH db added) as (new & H2 & H1 & Hnew).
      exists new. split; [done|]. split; [done|].
      eapply Forall_impl; [exact Hnew|]. intros d Hd. by right.
Qed.

Lemma mongo_add_messages_appends (messages coll : list Message) (all_new : bool)
    (added : nat) :
  ∃ new, (mongo_add_messages coll messages all_new added).2 = coll ++ new
         ∧ (∀ n, (mongo_add_messages coll messages all_new added).1 = Ok n →
                 n = (added + length new)%nat)
         ∧ Forall (λ d, ∃ m, m ∈ messages ∧ d = set__id m) new.
Proof.
  revert coll added. induction messages as [|m rest IH]; intros coll added; simpl.
  - exists []. rewrite app_nil_r. split; [done|]. split; [|done].
    intros n [= <-]. simpl. lia.
  - assert (Hstep : ∀ added',
      ∃ new, (mongo_add_messages (coll ++ [set__id m]) rest all_new added').2
             = coll ++ new
             ∧ (∀ n, (mongo_add_messages (coll ++ [set__id m]) rest all_new
                        added').1 = Ok n → n = (added' + length new - 1)%nat
                                          ∧ (1 ≤ length new)%nat)
             ∧ Forall (λ d, ∃ m', m' ∈ m :: rest ∧ d = set__id m') new).
    { intros added'.
      destruct (IH (coll ++ [set__id m]) added') as (new & -> & Hn & Hnew).
      exists (set__id m :: new). rewrite <- app_assoc. split; [done|].
      split; [intros n Hr; apply Hn in Hr; simpl; lia|].
      constructor; [exists m; split; [left|done]|].
      eapply Forall_impl; [exact Hnew|]. intros d (m' & ? & ?). exists m'.
      split; [by right|done]. }
    assert (Hskip :
      ∃ new, (mongo_add_messages coll rest all_new added).2 = coll ++ new
             ∧ (∀ n, (mongo_add_messages coll rest all_new added).1 = Ok n →
                     n = (added + length new)%nat)
             ∧ Forall (λ d, ∃ m', m' ∈ m :: rest ∧ d = set__id m') new).
    { destruct (IH coll added) as (new & -> & Hn & Hnew). exists new.
      split; [done|]. split; [done|].
      eapply Forall_impl; [exact Hnew|]. intros d (m' & ? & ?). exists m'.
      split; [by right|done]. }
    assert (Hstop : ∀ e : Exn,
      ∃ new, coll = coll ++ new
             ∧ (∀ n, @Raise nat e = Ok n → n = (added + length new)%nat)
             ∧ Forall (λ d, ∃ m', m' ∈ m :: rest ∧ d = set__id m') new).
    { intros e. exists []. by rewrite app_nil_r. }
    unfold insert_one. simpl.
    destruct all_new.
    + destruct (find_one coll (id m)); simpl; [apply Hstop|].
      destruct (Hstep (S added)) as (new & -> & Hn & Hnew). exists new.
      split; [done|]. split; [|done]. intros n Hr. apply Hn in Hr. lia.
    + destruct (find_one coll (id m)); simpl; [apply Hskip|].
      destruct (Hstep (S added)) as (new & -> & Hn & Hnew). exists new.
      split; [done|]. split; [|done]. intros n Hr. apply Hn in Hr. lia.
Qed.

Lemma add_messages_appends (a : Archive) (messages : list Message)
    (all_new : bool) :
  same_store a (add_messages a messages all_new).2
  ∧ ∃ new,
      get_all_messages (add_messages a messages all_new).2
      = get_all_messages a ++ new
      ∧ Forall (λ d, ∃ m, m ∈ messages ∧ d = stored a m) new
      ∧ (∀ n, (add_messages a messages all_new).1 = Ok n → length new = n).
Proof.
  destruct a as [path db file|dbpath coll]; simpl.
  - destruct (tinydb_add_messages_appends messages db all_new 0)
      as (new & H2 & H1 & Hnew).
    destruct (tinydb_add_messages db messages all_new 0) as [added db'].
    simpl in *. split; [done|]. exists new. split; [done|]. split.
    + eapply Forall_impl; [exact Hnew|]. intros d Hd. by exists d.
    + intros n [= <-]. by rewrite H1.
  - destruct (mongo_add_messages_appends messages coll all_new 0)
      as (new & H2 & H1 & Hnew).
    destruct (mongo_add_messages coll messages all_new 0) as [r coll'].
    simpl in *. split; [done|]. exists new. split; [done|]. split; [done|].
    intros n Hr. by rewrite (H1 n Hr).
Qed.

(** X1. whatever the batch, the flag and the outcome, [add_messages] keeps the
    stored records as they are and in their order, adding documents of the
    batch after them; when it returns a count, that is the number added. *)
Theorem add_messages_only_appends (a : Archive) (messages : list Message)
    (all_new : bool) :
  same_store a (add_messages a messages all_new).2
  ∧ ∃ new,
      get_all_messages (add_messages a messages all_new).2
      = get_all_messages a ++ new
      ∧ Forall (λ d, ∃ m, m ∈ messages ∧ d = stored a m) new
      ∧ (∀ n, (add_messages a messages all_new).1 = Ok n → length new = n).
Proof. apply add_messages_appends. Qed.

Lemma tinydb_add_messages_all (messages db : list Message) (added : nat) :
  tinydb_add_messages db messages true added
  = ((added + length messages)%nat, db ++ messages).
Proof.
  revert db added. induction messages as [|msg rest IH]; intros db added; simpl.
  - by rewrite app_nil_r, Nat.add_0_r.
  - rewrite IH. unfold insert. rewrite <- app_assoc. simpl. f_equal. lia.
Qed.

Lemma add_messages_tinydb_all (path : Value) (db file : list Message)
    (messages : list Message) :
  add_messages (TinyDBArchive path db file) messages true
  = (Ok (length messages), TinyDBArchive path (db ++ messages) file).
Proof. simpl. by rewrite tinydb_add_messages_all. Qed.

(** X2. with [all_new=True] the TinyDB backend tests nothing: it appends the
    whole batch in order, repeated and already stored ids included, and
    returns the length of the batch. *)
Theorem tinydb_add_messages_all_new (path : Value) (db file : list Message)
    (messages : list Message) :
  add_messages (TinyDBArchive path db file) messages true
  = (Ok (length messages), TinyDBArchive path (db ++ messages) file).
Proof. apply add_messages_tinydb_all. Qed.

Lemma find_one_app (coll l : list Message) (i : Id) :
  find_one (coll ++ l) i
  = match find_one coll i with
    | Some t => Some t
    | None => find_one l i
    end.
Proof.
  unfold find_one. induction coll as [|d coll IH]; simpl; [done|].
  by destruct (bool_decide (_id d = Some i)).
Qed.

Lemma find_one_set__id (l : list Message) (i : Id) :
  is_Some (find_one (map set__id l) i) ↔ i ∈ map id l.
Proof.
  rewrite find_one_ids.
  - rewrite map_map. simpl. done.
  - apply Forall_forall. intros d Hd.
    apply list_elem_of_fmap in Hd as (m & -> & _). done.
Qed.

Lemma mongo_add_messages_fresh (pre rest coll : list Message) (added : nat) :
  NoDup (map id pre) →
  (∀ x, x ∈ pre → find_one coll (id x) = None) →
  mongo_add_messages coll (pre ++ rest) true added
  = mongo_add_messages (coll ++ map set__id pre) rest true
      (added + length pre)%nat.
Proof.
  revert coll added. induction pre as [|m pre IH]; intros coll added Hnd Hfresh.
  - simpl. by rewrite app_nil_r, Nat.add_0_r.
  - apply NoDup_cons in Hnd as [Hm Hnd]. simpl.
    unfold insert_one. simpl. rewrite (Hfresh m) by left.
    rewrite IH; [|done|].
    + rewrite <- app_assoc. simpl. f_equal. lia.
    + intros x Hx. rewrite find_one_app, (Hfresh x) by (by right).
      unfold find_one. simpl. rewrite bool_decide_eq_false_2; [done|].
      intros [= Heq]. apply Hm. rewrite Heq. by apply list_elem_of_fmap_2.
Qed.

(** X3. with [all_new=True] the MongoDB backend stores a batch whose ids are
    distinct and not yet keys of the collection, and returns its length.  At
    the first message whose id is a key already, or repeats an earlier one of
    the batch, [insert_one] raises [DuplicateKeyError]: the messages before
    it stay stored, the ones after it are not looked at. *)
Theorem mongo_add_messages_all_new (dbpath : Value) (coll pre : list Message) :
  NoDup (map id pre) →
  (∀ x, x ∈ pre → find_one coll (id x) = None) →
  add_messages (MongoMotorArchive dbpath coll) pre true
  = (Ok (length pre), MongoMotorArchive dbpath (coll ++ map set__id pre))
  ∧ ∀ m post,
      is_Some (find_one coll (id m)) ∨ id m ∈ map id pre →
      add_messages (MongoMotorArchive dbpath coll) (pre ++ m :: post) true
      = (Raise (DuplicateKeyError (id m)),
         MongoMotorArchive dbpath (coll ++ map set__id pre)).
Proof.
  intros Hnd Hfresh. split.
  - simpl. rewrite <- (app_nil_r pre) at 1.
    rewrite (mongo_add_messages_fresh pre [] coll 0 Hnd Hfresh). done.
  - intros m post Hm. simpl.
    rewrite (mongo_add_messages_fresh pre (m :: post) coll 0 Hnd Hfresh).
    simpl. unfold insert_one. simpl.
    assert (Hf : is_Some (find_one (coll ++ map set__id pre) (id m))).
    { rewrite find_one_app. destruct Hm as [[t Ht]|Hm]; [by rewrite Ht|].
      destruct (find_one coll (id m)); [done|]. by apply find_one_set__id. }
    destruct Hf as [t ->]. done.
Qed.

Lemma mongo_add_messages_all_new_witness :
  add_messages (MongoMotorArchive "mongodb://localhost/discordArchiver"
                  [set__id (message 3)]) [message 5; message 7] true
  = (Ok 2%nat,
     MongoMotorArchive "mongodb://localhost/discordArchiver"
       [set__id (message 3); set__id (message 5); set__id (message 7)]).
Proof.
  apply (mongo_add_messages_all_new "mongodb://localhost/discordArchiver"
           [set__id (message 3)] [message 5; message 7]).
  - apply (bool_decide_unpack _). vm_compute. reflexivity.
  - intros x Hx. repeat (apply elem_of_cons in Hx as [->|Hx]; [reflexivity|]).
    by apply elem_of_nil in Hx.
Defined.

Lemma tinydb_add_messages_ids (messages db : list Message) (added : nat)
    (m : Message) :
  m ∈ messages →
  id m ∈ map id (tinydb_add_messages db messages false added).2.
Proof.
  revert db added. induction messages as [|msg rest IH]; intros db added Hm;
    [by apply elem_of_nil in Hm|].
  simpl. apply elem_of_cons in Hm as [->|Hm].
  - destruct (contains db (id msg)) eqn:Hc; simpl.
    + destruct (tinydb_add_messages_appends rest db false added)
        as (new & -> & _). rewrite map_app, elem_of_app. left.
      by apply contains_ids.
    + destruct (tinydb_add_messages_appends rest (insert db msg) false
                  (S added)) as (new & -> & _).
      unfold insert. rewrite !map_app, !elem_of_app. left. right. simpl. left.
  - destruct (contains db (id msg)); simpl; by apply IH.
Qed.

Lemma mongo_add_messages_ids (messages coll : list Message) (added : nat) :
  Forall (λ d, _id d = Some (id d)) coll →
  ∃ n coll', mongo_add_messages coll messages false added = (Ok n, coll')
             ∧ Forall (λ d, _id d = Some (id d)) coll'
             ∧ ∀ m, m ∈ messages → id m ∈ map id coll'.
Proof.
  revert coll added. induction messages as [|m0 rest IH]; intros coll added Hk;
    simpl.
  - exists added, coll. split; [done|]. split; [done|].
    intros m Hm. by apply elem_of_nil in Hm.
  - assert (Hin : ∀ coll1 added1,
      Forall (λ d, _id d = Some (id d)) coll1 → id m0 ∈ map id coll1 →
      ∃ n coll', mongo_add_messages coll1 rest false added1 = (Ok n, coll')
                 ∧ Forall (λ d, _id d = Some (id d)) coll'
                 ∧ ∀ m, m ∈ m0 :: rest → id m ∈ map id coll').
    { intros coll1 added1 Hk1 Hm0.
      destruct (IH coll1 added1 Hk1) as (n & coll' & Hr & Hk' & Hids).
      exists n, coll'. split; [done|]. split; [done|].
      intros m [->|Hm]%elem_of_cons; [|by apply Hids].
      destruct (mongo_add_messages_appends rest coll1 false added1)
        as (new & Hnew & _). rewrite Hr in Hnew. simpl in Hnew. subst coll'.
      rewrite map_app, elem_of_app. by left. }
    destruct (find_one coll (id m0)) as [t|] eqn:Hf.
    + apply Hin; [done|]. apply find_one_ids; [done|]. by rewrite Hf.
    + unfold insert_one. simpl. rewrite Hf. apply Hin.
      * apply Forall_app. split; [done|]. by apply Forall_singleton.
      * rewrite map_app, elem_of_app. right. simpl. left.
Qed.

Lemma tinydb_add_messages_bound (messages db : list Message) (added : nat) :
  ((tinydb_add_messages db messages false added).1
   ≤ added + length messages)%nat.
Proof.
  revert db added. induction messages as [|x ms IH]; intros db added; simpl;
    [lia|].
  destruct (contains db (id x)); simpl.
  - specialize (IH db added). lia.
  - specialize (IH (insert db x) (S added)). lia.
Qed.

Lemma mongo_add_messages_bound (messages coll coll' : list Message)
    (added n : nat) :
  mongo_add_messages coll messages false added = (Ok n, coll') →
  (n ≤ added + length messages)%nat.
Proof.
  revert coll added. induction messages as [|x ms IH]; intros coll added; simpl.
  - intros [= <- <-]. lia.
  - unfold insert_one. simpl.
    destruct (find_one coll (id x)); intros H; apply IH in H; lia.
Qed.

(** X4. with [all_new=False] both backends take any batch without raising,
    repeated ids included; afterwards the id of every message of the batch
    is stored, and at most as many records were added as the batch has. *)
Theorem add_messages_upsert_stores (a : Archive) (messages : list Message) :
  keyed a →
  ∃ n a', add_messages a messages false = (Ok n, a')
          ∧ keyed a'
          ∧ (∀ m, m ∈ messages → id m ∈ ids a')
          ∧ (n ≤ length messages)%nat.
Proof.
  intros Hk. destruct a as [path db file|dbpath coll]; simpl in *.
  - pose proof (tinydb_add_messages_bound messages db 0) as Hb.
    destruct (tinydb_add_messages db messages false 0) as [n db'] eqn:Hr.
    exists n, (TinyDBArchive path db' file). split; [done|]. split; [done|].
    split; [|done].
    intros m Hm. unfold ids. simpl.
    pose proof (tinydb_add_messages_ids messages db 0 m Hm) as H.
    by rewrite Hr in H.
  - destruct (mongo_add_messages_ids messages coll 0 Hk)
      as (n & coll' & Hr & Hk' & Hids).
    exists n, (MongoMotorArchive dbpath coll'). rewrite Hr. split; [done|].
    split; [done|]. split; [done|].
    apply (mongo_add_messages_bound messages coll coll' 0 n Hr).
Qed.

Lemma add_messages_upsert_stores_witness :
  ∃ n a', add_messages (TinyDBArchive "messages.json" [message 3] [])
            [message 5; message 3; message 5] false = (Ok n, a')
          ∧ keyed a'
          ∧ (∀ m, m ∈ [message 5; message 3; message 5] → id m ∈ ids a')
          ∧ (n ≤ 3)%nat.
Proof.
  apply (add_messages_upsert_stores
           (TinyDBArchive "messages.json" [message 3] [])
           [message 5; message 3; message 5]).
  exact I.
Defined.

(** ** More on the watermarks *)

Lemma fold_left_max_in (l : list Z) (z : Z) : fold_left Z.max l z ∈ z :: l.
Proof.
  revert z. induction l as [|y l IH]; intros z; simpl; [left|].
  specialize (IH (Z.max z y)). apply elem_of_cons in IH as [->|IH].
  - destruct (Z.max_spec z y) as [[_ ->]|[_ ->]]; [right; left|left].
  - by do 2 right.
Qed.

Lemma compute_watermarks_latest_attained (msg1 : Message) (messages : list Message) :
  (compute_watermarks msg1 messages).2 ∈ map id (msg1 :: messages)
  ∧ ∀ m, m ∈ msg1 :: messages → id m ≤ (compute_watermarks msg1 messages).2.
Proof.
  split.
  - rewrite compute_watermarks_latest. apply fold_left_max_in.
  - intros m Hm. by apply compute_watermarks_latest_max.
Qed.

(** X5. in whatever order the records come, [latest_id] ends as the largest of
    their ids: the id of one of them, and at least the id of each. *)
Theorem latest_id_is_maximum (msg1 : Message) (messages : list Message) :
  (compute_watermarks msg1 messages).2 ∈ map id (msg1 :: messages)
  ∧ ∀ m, m ∈ msg1 :: messages → id m ≤ (compute_watermarks msg1 messages).2.
Proof. apply compute_watermarks_latest_attained. Qed.

(** X6. [oldest_id] ends as the smaller of the id of the record iterated last
    and the largest id before it.  So it is the least id when the last
    record is the oldest one, and the second largest id when the last record
    is the newest one. *)
Theorem oldest_id_from_last_record (msg1 m : Message) (rest : list Message) :
  (compute_watermarks msg1 (rest ++ [m])).1
  = Z.min (compute_watermarks msg1 rest).2 (id m)
  ∧ ((∀ x, x ∈ msg1 :: rest → id m ≤ id x) →
     (compute_watermarks msg1 (rest ++ [m])).1 = id m)
  ∧ ((∀ x, x ∈ msg1 :: rest → id x < id m) →
     (compute_watermarks msg1 (rest ++ [m])).1 = (compute_watermarks msg1 rest).2
     ∧ ∀ x, x ∈ msg1 :: rest → id x ≤ (compute_watermarks msg1 (rest ++ [m])).1).
Proof.
  rewrite compute_watermarks_oldest.
  destruct (compute_watermarks_latest_attained msg1 rest) as [Hin Hmax].
  apply list_elem_of_fmap in Hin as (y & Hy & Hyin).
  split; [done|]. split.
  - intros Hleast. specialize (Hleast y Hyin). lia.
  - intros Hnewest. pose proof (Hnewest y Hyin).
    assert (Heq : Z.min (compute_watermarks msg1 rest).2 (id m)
                  = (compute_watermarks msg1 rest).2) by lia.
    rewrite Heq. split; [done|]. exact Hmax.
Qed.

(** ** What [archive_channel] does and does not do *)

(** [archive_channel] is made of three kinds of steps: a request, an
    [add_messages] with [all_new=True], and a flush.  A relation between
    worlds that holds across each of them, and is a preorder, holds across a
    whole call, whatever its outcome. *)
Section Steps.

Variable request : Route → Outcome (list Message).
Variable channel : Channel.
Variable R : World → World → Prop.
Hypothesis R_refl : ∀ w, R w w.
Hypothesis R_trans : ∀ w1 w2 w3, R w1 w2 → R w2 w3 → R w1 w3.
Hypothesis R_request : ∀ w before after,
  before = None ∨ after = None →
  R w (emit (Request (mkRoute (chan_id channel) 100 before after)) w).
Hypothesis R_add : ∀ w messages, R w (archive_add_messages messages true w).2.
Hypothesis R_flush : ∀ w, R w (archive_flush w).2.

Lemma get_new_messages_steps (fuel added : nat) (latest_id : Z) (w : World) :
  R w (get_new_messages request fuel channel added latest_id w).2.
Proof using All.
  revert added latest_id w.
  induction fuel as [|fuel IH]; intros added latest_id w; [apply R_refl|].
  rewrite get_new_messages_S.
  assert (Hreq : R w (emit (Request (newer channel latest_id)) w)).
  { apply R_request. by left. }
  destruct (request (newer channel latest_id)) as [[|m page]| |]; try done.
  pose proof (R_add (emit (Request (newer channel latest_id)) w) (m :: page))
    as Hadd.
  destruct (archive_add_messages _ _ _) as [[n| |] w']; simpl in *;
    try (by eapply R_trans).
  eapply R_trans; [exact Hreq|]. eapply R_trans; [exact Hadd|]. apply IH.
Qed.

Lemma get_old_messages_steps (fuel added : nat) (oldest_id : Z) (w : World) :
  R w (get_old_messages request fuel channel added oldest_id w).2.
Proof using All.
  revert added oldest_id w.
  induction fuel as [|fuel IH]; intros added oldest_id w; [apply R_refl|].
  rewrite get_old_messages_S.
  assert (Hreq : R w (emit (Request (older channel oldest_id)) w)).
  { apply R_request. by right. }
  destruct (request (older channel oldest_id)) as [[|m page]| |]; try done.
  pose proof (R_add (emit (Request (older channel oldest_id)) w) (m :: page))
    as Hadd.
  destruct (archive_add_messages _ _ _) as [[n| |] w']; simpl in *;
    try (by eapply R_trans).
  eapply R_trans; [exact Hreq|]. eapply R_trans; [exact Hadd|]. apply IH.
Qed.

Lemma fill_steps (fuel added : nat) (oldest_id latest_id : Z) (w : World) :
  R w (fill request fuel channel added oldest_id latest_id w).2.
Proof using All.
  unfold fill. rewrite bind_eq.
  pose proof (get_new_messages_steps fuel added latest_id w) as Hnew.
  destruct (get_new_messages _ _ _ _ _ _) as [[[added1 latest1]| |] w1];
    simpl in *; try done.
  rewrite bind_eq.
  pose proof (get_old_messages_steps fuel added1 oldest_id w1) as Hold.
  destruct (get_old_messages _ _ _ _ _ _) as [[[added2 oldest2]| |] w2];
    simpl in *; try (by eapply R_trans).
  rewrite bind_eq. pose proof (R_flush w2) as Hf.
  destruct (archive_flush w2) as [[[]| |] w3]; simpl in *;
    eapply R_trans; try exact Hnew; by eapply R_trans.
Qed.

Lemma archive_channel_steps (fuel : nat) (w : World) :
  R w (archive_channel request fuel channel w).2.
Proof using All.
  unfold archive_channel. rewrite bind_eq, the_archive_eq.
  destruct (self_archive w) as [a|]; [|apply R_refl].
  destruct (get_messages a Omitted (Obj (chan_id channel)))
    as [|msg1 messages].
  - rewrite bind_eq, _fetch_messages_eq. simpl if_set.
    assert (Hreq : R w (emit (Request (mkRoute (chan_id channel) 100 None None))
                          w)).
    { apply R_request. by left. }
    destruct (request _) as [[|m page]| |]; try done.
    rewrite bind_eq.
    pose proof (R_add (emit (Request (mkRoute (chan_id channel) 100 None None))
                         w) (m :: page)) as Hadd.
    destruct (archive_add_messages _ _ _) as [[n| |] w']; simpl in *;
      try (by eapply R_trans).
    destruct (compute_watermarks m (m :: page)) as [o l].
    eapply R_trans; [exact Hreq|]. eapply R_trans; [exact Hadd|].
    apply fill_steps.
  - destruct (compute_watermarks msg1 messages) as [o l]. apply fill_steps.
Qed.

End Steps.

Lemma same_store_refl (a : Archive) : same_store a a.
Proof. by destruct a. Qed.

Lemma same_store_trans (a b c : Archive) :
  same_store a b → same_store b c → same_store a c.
Proof. destruct a, b, c; simpl; intros; try done; congruence. Qed.

Lemma keeps_refl (w : World) : keeps w w.
Proof.
  unfold keeps. repeat split; try done.
  destruct (self_archive w); [|done]. split; [apply same_store_refl|done].
Qed.

Lemma keeps_trans (w1 w2 w3 : World) : keeps w1 w2 → keeps w2 w3 → keeps w1 w3.
Proof.
  unfold keeps. intros (H1 & H2 & H3 & H4 & H5 & H6) (K1 & K2 & K3 & K4 & K5 & K6).
  repeat split; try congruence; [by etrans|].
  destruct (self_archive w1), (self_archive w2), (self_archive w3); try done.
  destruct H6, K6. split; [by eapply same_store_trans|by etrans].
Qed.

Lemma keeps_emit (e : Event) (w : World) : keeps w (emit e w).
Proof.
  unfold keeps. simpl. repeat split; try done; [by apply prefix_app_r|].
  destruct (self_archive w); [|done]. split; [apply same_store_refl|done].
Qed.

Lemma archive_add_messages_eq (messages : list Message) (all_new : bool)
    (w : World) :
  archive_add_messages messages all_new w
  = match self_archive w with
    | Some a =>
        ((add_messages a messages all_new).1,
         set_archive (Some (add_messages a messages all_new).2) w)
    | None => (Raise (AttributeError "archive"), w)
    end.
Proof.
  unfold archive_add_messages. rewrite bind_eq, the_archive_eq.
  destruct (self_archive w) as [a|]; [|done].
  by destruct (add_messages a messages all_new) as [[]].
Qed.

Lemma archive_flush_eq (w : World) :
  archive_flush w
  = match self_archive w with
    | Some a => (Ok (), emit Flush (set_archive (Some (flush a)) w))
    | None => (Raise (AttributeError "archive"), w)
    end.
Proof.
  unfold archive_flush. rewrite bind_eq, the_archive_eq.
  by destruct (self_archive w).
Qed.

Lemma keeps_add (messages : list Message) (all_new : bool) (w : World) :
  keeps w (archive_add_messages messages all_new w).2.
Proof.
  rewrite archive_add_messages_eq.
  destruct (self_archive w) as [a|] eqn:Ha; [|apply keeps_refl].
  unfold keeps. simpl. rewrite Ha. repeat split; try done.
  - by destruct (add_messages_appends a messages all_new).
  - destruct (add_messages_appends a messages all_new)
      as (_ & new & -> & _). by apply prefix_app_r.
Qed.

Lemma keeps_flush (w : World) : keeps w (archive_flush w).2.
Proof.
  rewrite archive_flush_eq.
  destruct (self_archive w) as [a|] eqn:Ha; [|apply keeps_refl].
  unfold keeps. simpl. rewrite Ha. repeat split; try done.
  - by apply prefix_app_r.
  - by destruct a.
  - by destruct a.
Qed.

Lemma keeps_archive_channel (request : Route → Outcome (list Message))
    (fuel : nat) (channel : Channel) (w : World) :
  keeps w (archive_channel request fuel channel w).2.
Proof.
  apply archive_channel_steps.
  - apply keeps_refl.
  - apply keeps_trans.
  - intros w0 before after _. apply keeps_emit.
  - intros w0 messages. apply keeps_add.
  - apply keeps_flush.
Qed.

(** X7. whatever the remote answers and however the call ends (result,
    exception, or still running), [archive_channel] leaves the
    configuration, the config file and the stores at rest as they were, and
    the active backend is the same store holding the records it held, in the
    same order, with new ones after them: nothing is removed or rewritten. *)
Theorem archive_channel_keeps (request : Route → Outcome (list Message))
    (fuel : nat) (channel : Channel) (w : World) :
  keeps w (archive_channel request fuel channel w).2.
Proof. apply keeps_archive_channel. Qed.

(** X8. every request [archive_channel] sends to the remote is for a page of
    100 messages of the given channel, with at most one of the cursors
    [before] and [after]; it has the bot say nothing and does not dump the
    configuration.  (Of the calls on the backend only the flush is an event:
    this says nothing about the others.) *)
Theorem archive_channel_requests (request : Route → Outcome (list Message))
    (fuel : nat) (channel : Channel) (w : World) :
  ∃ calls, trace (archive_channel request fuel channel w).2 = trace w ++ calls
           ∧ Forall (expected channel) calls.
Proof.
  apply (archive_channel_steps request channel
           (λ w w', ∃ calls, trace w' = trace w ++ calls
                             ∧ Forall (expected channel) calls)).
  - intros w0. exists []. by rewrite app_nil_r.
  - intros w1 w2 w3 (c1 & -> & H1) (c2 & -> & H2). exists (c1 ++ c2).
    rewrite app_assoc. split; [done|]. by apply Forall_app.
  - intros w0 before after Hc. exists [Request (mkRoute (chan_id channel) 100
                                                   before after)].
    split; [done|]. by apply Forall_singleton.
  - intros w0 messages. exists []. rewrite app_nil_r. split; [|done].
    rewrite archive_add_messages_eq. by destruct (self_archive w0).
  - intros w0. rewrite archive_flush_eq.
    destruct (self_archive w0); [|exists []; by rewrite app_nil_r].
    exists [Flush]. split; [done|]. by apply Forall_singleton.
Qed.

Lemma archive_add_messages_count (messages : list Message) (all_new : bool)
    (w w' : World) (n : nat) :
  archive_add_messages messages all_new w = (Ok n, w') →
  length (stored_ids w') = (length (stored_ids w) + n)%nat.
Proof.
  rewrite archive_add_messages_eq. unfold stored_ids.
  destruct (self_archive w) as [a|]; [|done]. intros [= Hn <-]. simpl.
  destruct (add_messages_appends a messages all_new)
    as (_ & new & Hall & _ & Hcount).
  unfold ids. rewrite Hall, length_map, length_app, length_map.
  by rewrite (Hcount n Hn).
Qed.

Lemma get_new_messages_count (request : Route → Outcome (list Message))
    (channel : Channel) (fuel : nat) :
  ∀ (added : nat) (latest_id : Z) (w w' : World) (n : nat) (l : Z),
    get_new_messages request fuel channel added latest_id w = (Ok (n, l), w') →
    (length (stored_ids w') + added = length (stored_ids w) + n)%nat.
Proof.
  induction fuel as [|fuel IH]; intros added latest_id w w' n l; [done|].
  rewrite get_new_messages_S.
  destruct (request (newer channel latest_id)) as [[|m page]| |]; try done.
  - intros [= <- _ <-]. done.
  - destruct (archive_add_messages _ _ _) as [[k| |] w1] eqn:Hadd; try done.
    intros H. apply IH in H. apply archive_add_messages_count in Hadd.
    change (stored_ids (emit (Request (newer channel latest_id)) w))
      with (stored_ids w) in Hadd. lia.
Qed.

Lemma get_old_messages_count (request : Route → Outcome (list Message))
    (channel : Channel) (fuel : nat) :
  ∀ (added : nat) (oldest_id : Z) (w w' : World) (n : nat) (o : Z),
    get_old_messages request fuel channel added oldest_id w = (Ok (n, o), w') →
    (length (stored_ids w') + added = length (stored_ids w) + n)%nat.
Proof.
  induction fuel as [|fuel IH]; intros added oldest_id w w' n o; [done|].
  rewrite get_old_messages_S.
  destruct (request (older channel oldest_id)) as [[|m page]| |]; try done.
  - intros [= <- _ <-]. done.
  - destruct (archive_add_messages _ _ _) as [[k| |] w1] eqn:Hadd; try done.
    intros H. apply IH in H. apply archive_add_messages_count in Hadd.
    change (stored_ids (emit (Request (older channel oldest_id)) w))
      with (stored_ids w) in Hadd. lia.
Qed.

Lemma archive_flush_stored_ids (w w' : World) (u : ()) :
  archive_flush w = (Ok u, w') → stored_ids w' = stored_ids w.
Proof.
  rewrite archive_flush_eq. unfold stored_ids.
  destruct (self_archive w) as [a|] eqn:Ha; [|done]. intros H.
  assert (w' = emit Flush (set_archive (Some (flush a)) w)) as -> by congruence.
  simpl. by destruct a.
Qed.

Lemma fill_count (request : Route → Outcome (list Message))
    (channel : Channel) (fuel added : nat) (oldest_id latest_id : Z)
    (w w' : World) (n : nat) :
  fill request fuel channel added oldest_id latest_id w = (Ok n, w') →
  (length (stored_ids w') + added = length (stored_ids w) + n)%nat.
Proof.
  unfold fill. intros H.
  apply bind_Ok in H as ([added1 latest1] & w1 & Hnew & H).
  apply bind_Ok in H as ([added2 oldest2] & w2 & Hold & H).
  apply bind_Ok in H as ([] & w3 & Hf & H).
  unfold mret, M_ret, ret in H. simplify_eq.
  apply get_new_messages_count in Hnew. apply get_old_messages_count in Hold.
  apply archive_flush_stored_ids in Hf. rewrite Hf. lia.
Qed.

(** X9. the number [archive_channel] returns is the number of records the
    call added to the store: afterwards the backend holds that many more. *)
Theorem archive_channel_returns_growth
    (request : Route → Outcome (list Message)) (fuel : nat)
    (channel : Channel) (w w' : World) (n : nat) :
  archive_channel request fuel channel w = (Ok n, w') →
  length (stored_ids w') = (length (stored_ids w) + n)%nat.
Proof.
  unfold archive_channel. intros H.
  apply bind_Ok in H as (a & w1 & Ha & H).
  rewrite the_archive_eq in Ha.
  destruct (self_archive w) as [a0|] eqn:Ha0; [|done]. simplify_eq.
  destruct (get_messages a Omitted (Obj (chan_id channel)))
    as [|msg1 messages].
  - apply bind_Ok in H as (page & w2 & Hf & H).
    rewrite _fetch_messages_eq in Hf. simplify_eq.
    destruct page as [|m page].
    + unfold mret, M_ret, ret in H. simplify_eq.
      unfold stored_ids. simpl. lia.
    + apply bind_Ok in H as (k & w3 & Hadd & H).
      apply archive_add_messages_count in Hadd.
      destruct (compute_watermarks m (m :: page)) as [o l].
      apply fill_count in H.
      unfold stored_ids in *. simpl in *. lia.
  - destruct (compute_watermarks msg1 messages) as [o l].
    apply fill_count in H. lia.
Qed.

Lemma archive_channel_returns_growth_witness :
  length (stored_ids
            (archive_channel (serve (map message [7; 5; 3])) 3 general started).2)
  = (length (stored_ids started) + 3)%nat.
Proof.
  apply (archive_channel_returns_growth (serve (map message [7; 5; 3])) 3
           general started _ 3%nat).
  vm_compute. reflexivity.
Defined.

Lemma fill_nothing (request : Route → Outcome (list Message))
    (channel : Channel) (fuel added : nat) (oldest_id latest_id : Z)
    (w : World) (a : Archive) :
  self_archive w = Some a →
  request (newer channel latest_id) = Ok [] →
  request (older channel oldest_id) = Ok [] →
  fill request (S fuel) channel added oldest_id latest_id w
  = (Ok added,
     emit Flush
       (set_archive (Some (flush a))
          (emit (Request (older channel oldest_id))
             (emit (Request (newer channel latest_id)) w)))).
Proof.
  intros Ha Hnew Hold. unfold fill.
  rewrite bind_eq, get_new_messages_S, Hnew.
  rewrite bind_eq, get_old_messages_S, Hold.
  rewrite bind_eq, archive_flush_eq. simpl. by rewrite Ha.
Qed.

(** X10. when the channel already has stored records and the remote has
    nothing beyond the two watermarks the call computes, [archive_channel]
    asks once in each direction, adds nothing, flushes and returns 0; the
    records stay exactly as they were. *)
Theorem archive_channel_up_to_date (request : Route → Outcome (list Message))
    (fuel : nat) (channel : Channel) (w : World) (a : Archive)
    (msg1 : Message) (rest : list Message) :
  self_archive w = Some a →
  get_messages a Omitted (Obj (chan_id channel)) = msg1 :: rest →
  request (newer channel (compute_watermarks msg1 rest).2) = Ok [] →
  request (older channel (compute_watermarks msg1 rest).1) = Ok [] →
  archive_channel request (S fuel) channel w
  = (Ok 0%nat,
     emit Flush
       (set_archive (Some (flush a))
          (emit (Request (older channel (compute_watermarks msg1 rest).1))
             (emit (Request (newer channel (compute_watermarks msg1 rest).2))
                w))))
  ∧ get_all_messages (flush a) = get_all_messages a.
Proof.
  intros Ha Hg Hnew Hold. split; [|by destruct a].
  unfold archive_channel. rewrite bind_eq, the_archive_eq, Ha, Hg.
  destruct (compute_watermarks msg1 rest) as [o l]. simpl in *.
  by apply fill_nothing.
Qed.

Lemma archive_channel_up_to_date_witness :
  archive_channel (serve (map message [7; 5; 3])) 1 general
    (set_archive (Some (TinyDBArchive "messages.json" (map message [7; 5; 3]) []))
       started)
  = (Ok 0%nat,
     emit Flush
       (set_archive
          (Some (TinyDBArchive "messages.json" (map message [7; 5; 3])
                   (map message [7; 5; 3])))
          (emit (Request (older general 3))
             (emit (Request (newer general 7))
                (set_archive
                   (Some (TinyDBArchive "messages.json"
                            (map message [7; 5; 3]) []))
                   started))))).
Proof.
  apply (archive_channel_up_to_date (serve (map message [7; 5; 3])) 0 general
           (set_archive
              (Some (TinyDBArchive "messages.json" (map message [7; 5; 3]) []))
              started)
           (TinyDBArchive "messages.json" (map message [7; 5; 3]) [])
           (message 7) (map message [5; 3])); reflexivity.
Defined.

Lemma get_messages_app (path : Value) (db new file file' : list Message)
    (user channel : Ref) :
  get_messages (TinyDBArchive path (db ++ new) file') user channel
  = get_messages (TinyDBArchive path db file) user channel
    ++ get_messages (TinyDBArchive path new file) user channel.
Proof.
  unfold get_messages. rewrite !get_messages_loop_filter. simpl.
  apply List.filter_app.
Qed.

(** X11. first run on a channel of which nothing is stored (TinyDB backend).
    When the remote has one page and nothing beyond it in either direction,
    [archive_channel] stores the page after what the table holds, writes the
    table to the file and returns the length of the page; if the page is of
    that channel, a query for the channel then yields the page. *)
Theorem archive_channel_first_page (request : Route → Outcome (list Message))
    (fuel : nat) (channel : Channel) (w : World) (path : Value)
    (db file : list Message) (m : Message) (page : list Message) :
  self_archive w = Some (TinyDBArchive path db file) →
  get_messages (TinyDBArchive path db file) Omitted (Obj (chan_id channel)) = [] →
  request (latest_page channel) = Ok (m :: page) →
  request (newer channel (compute_watermarks m (m :: page)).2) = Ok [] →
  request (older channel (compute_watermarks m (m :: page)).1) = Ok [] →
  (archive_channel request (S fuel) channel w).1 = Ok (length (m :: page))
  ∧ self_archive (archive_channel request (S fuel) channel w).2
    = Some (TinyDBArchive path (db ++ m :: page) (db ++ m :: page))
  ∧ (Forall (λ x, channel_id x = chan_id channel) (m :: page) →
     get_messages (TinyDBArchive path (db ++ m :: page) (db ++ m :: page))
       Omitted (Obj (chan_id channel)) = m :: page).
Proof.
  intros Ha Hg Hpage Hnew Hold.
  assert (Hrun : archive_channel request (S fuel) channel w
    = (Ok (length (m :: page)),
       emit Flush
         (set_archive (Some (flush (TinyDBArchive path (db ++ m :: page) file)))
            (emit (Request (older channel (compute_watermarks m (m :: page)).1))
               (emit (Request (newer channel
                                 (compute_watermarks m (m :: page)).2))
                  (set_archive
                     (Some (TinyDBArchive path (db ++ m :: page) file))
                     (emit (Request (latest_page channel)) w))))))).
  { unfold archive_channel. rewrite bind_eq, the_archive_eq, Ha, Hg.
    rewrite bind_eq, _fetch_messages_eq. simpl if_set.
    fold (latest_page channel). rewrite Hpage.
    rewrite bind_eq, archive_add_messages_eq.
    change (self_archive (emit (Request (latest_page channel)) w))
      with (self_archive w). rewrite Ha.
    rewrite add_messages_tinydb_all.
    destruct (compute_watermarks m (m :: page)) as [o l]. simpl in Hnew, Hold.
    cbn [fst snd]. by apply fill_nothing. }
  rewrite Hrun. simpl. split; [done|]. split; [done|].
  intros Hch. rewrite (get_messages_app path db (m :: page) file), Hg. simpl.
  unfold get_messages. rewrite get_messages_loop_filter. simpl get_all_messages.
  apply forallb_filter_id, forallb_forall. intros x Hx%list_elem_of_In.
  pose proof (proj1 (Forall_forall _ _) Hch x Hx) as Hxc. simpl.
  by rewrite Hxc, bool_decide_eq_true_2.
Qed.

(** ** More on the configuration *)

Lemma archive_backends_cases (TinyDB Motor : bool) (b : string)
    (cls : BackendClass) :
  archive_backends TinyDB Motor !! b = Some cls →
  (b = "TinyDB" ∧ cls = TinyDBArchive_cls ∧ TinyDB = true)
  ∨ (b = "MongoDB" ∧ cls = MongoMotorArchive_cls ∧ Motor = true).
Proof.
  unfold archive_backends. destruct TinyDB, Motor; simpl;
    rewrite ?lookup_insert_Some, ?lookup_empty; intuition congruence.
Qed.

Lemma _make_backend_Ok (TinyDB Motor : bool) (w w' : World) (u : ()) :
  _make_backend TinyDB Motor w = (Ok u, w') →
  ∃ b d cls (p : Value),
    self_config w !! "backend" = Some (VStr b)
    ∧ DEFAULT_PATH TinyDB Motor !! b = Some d
    ∧ archive_backends TinyDB Motor !! b = Some cls
    ∧ default (VStr d) (self_config w !! (b +:+ "_path")) = p
    ∧ w' = set_archive
             (Some (opened cls p
                      (at_rest (self_archive w)
                         (set_config (<[b +:+ "_path" := p]> (self_config w))
                            w))))
             (at_rest (self_archive w)
                (set_config (<[b +:+ "_path" := p]> (self_config w)) w)).
Proof.
  unfold _make_backend, construct, getitem, close.
  unfold mbind, M_bind, bind, gets, modify, mret, M_ret, ret, raise. simpl.
  destruct w as [config old config_file' files' databases' trace']. simpl.
  intros H.
  destruct old as [[path db file|dbpath coll]|]; simpl in H.
  all: destruct (config !! "backend") as [[b|]|] eqn:Hb; simpl in H; try done.
  all: destruct (DEFAULT_PATH TinyDB Motor !! b) as [d|] eqn:Hd; simpl in H;
    try done.
  all: destruct (archive_backends TinyDB Motor !! b) as [cls|] eqn:Hc;
    simpl in H; try done.
  all: exists b, d, cls, (default (VStr d) (config !! (b +:+ "_path")));
    repeat split; try done.
  all: destruct cls; simpl in *.
  all: unfold set_archive, set_files, set_databases, set_config in *;
    simpl in *; congruence.
Qed.

Lemma at_rest_self (a : option Archive) (w : World) :
  self_config (at_rest a w) = self_config w
  ∧ self_archive (at_rest a w) = self_archive w.
Proof. by destruct a as [[]|]. Qed.

Lemma backend_matches_ext (TinyDB Motor : bool) (w w' : World) :
  self_config w' = self_config w →
  self_archive w' = self_archive w →
  backend_matches TinyDB Motor w → backend_matches TinyDB Motor w'.
Proof. unfold backend_matches. by intros -> ->. Qed.

Lemma _make_backend_matches (TinyDB Motor : bool) (w w' : World) (u : ()) :
  _make_backend TinyDB Motor w = (Ok u, w') → backend_matches TinyDB Motor w'.
Proof.
  intros H. apply _make_backend_Ok in H as (b & d & cls & p & Hb & _ & Hc & _ & ->).
  exists b, cls, p. simpl.
  rewrite (proj1 (at_rest_self _ _)). simpl.
  split; [|split; [done|split; [apply lookup_insert_eq|by destruct cls]]].
  rewrite lookup_insert_ne; [done|].
  by apply archive_backends_cases in Hc as [(-> & _)|(-> & _)].
Qed.

(** The set form of the config command, when the key is not [reload] and the
    value is not a backend that is not installed. *)
Lemma config_set_eq (TinyDB Motor : bool) (key value : string) (w : World) :
  String.eqb key "reload" = false →
  (String.eqb key "backend" = true →
   is_Some (archive_backends TinyDB Motor !! value)) →
  _archive_config TinyDB Motor (Some key) (Some value) w
  = if is_path_key key || String.eqb key "backend" then
      match _make_backend TinyDB Motor
              (set_config (<[key := VStr value]> (self_config w)) w) with
      | (Ok _, w2) =>
          (Ok (), emit (Dump (self_config w2))
                    (set_config_file (Some (self_config w2))
                       (emit (Say SayReloaded) w2)))
      | (Raise e, w2) => (Raise e, w2)
      | (OutOfFuel, w2) => (OutOfFuel, w2)
      end
    else
      (Ok (), emit (Dump (<[key := VStr value]> (self_config w)))
                (set_config_file (Some (<[key := VStr value]> (self_config w)))
                   (set_config (<[key := VStr value]> (self_config w)) w))).
Proof.
  intros Hreload Hbackend. unfold _archive_config. rewrite Hreload.
  assert (Hset : ∀ c c', set_config c' (set_config c w) = set_config c' w)
    by done.
  destruct (String.eqb key "backend") eqn:Hkb.
  - rewrite bool_decide_eq_true_2 by auto.
    rewrite orb_true_r.
    unfold mbind, M_bind, bind, modify, say, mret, M_ret, ret. simpl.
    rewrite insert_insert_eq, Hset.
    destruct (_make_backend TinyDB Motor _) as [[[]| |] w2]; done.
  - rewrite orb_false_r.
    unfold mbind, M_bind, bind, modify, say, mret, M_ret, ret. simpl.
    destruct (is_path_key key); [|done].
    destruct (_make_backend TinyDB Motor _) as [[[]| |] w2]; done.
Qed.

(** X12. setting a key other than [backend] and the keys ending in [_path]
    changes that entry in memory, writes the configuration to the config
    file, and leaves the backend object alone: no rebuild. *)
Theorem config_set_ordinary_key (TinyDB Motor : bool) (key value : string)
    (w : World) :
  key ≠ "reload" → key ≠ "backend" → is_path_key key = false →
  _archive_config TinyDB Motor (Some key) (Some value) w
  = (Ok (), emit (Dump (<[key := VStr value]> (self_config w)))
              (set_config_file (Some (<[key := VStr value]> (self_config w)))
                 (set_config (<[key := VStr value]> (self_config w)) w)))
  ∧ self_archive (_archive_config TinyDB Motor (Some key) (Some value) w).2
    = self_archive w
  ∧ config_file (_archive_config TinyDB Motor (Some key) (Some value) w).2
    = Some (self_config
              (_archive_config TinyDB Motor (Some key) (Some value) w).2).
Proof.
  intros Hr Hb Hp.
  rewrite config_set_eq.
  - rewrite Hp, (proj2 (String.eqb_neq _ _) Hb). done.
  - by apply String.eqb_neq.
  - intros Heq. by apply String.eqb_eq in Heq.
Qed.

Lemma config_set_ordinary_key_witness :
  _archive_config true false (Some "watch") (Some "True") started
  = (Ok (), emit (Dump (<["watch" := VStr "True"]> (self_config started)))
              (set_config_file
                 (Some (<["watch" := VStr "True"]> (self_config started)))
                 (set_config (<["watch" := VStr "True"]> (self_config started))
                    started))).
Proof.
  apply (config_set_ordinary_key true false "watch" "True" started);
    [discriminate|discriminate|reflexivity].
Defined.

(** X13. once [__init__] has succeeded, and after every config command that
    returns normally, the backend object is an instance of the class
    registered under the configured [backend], located at the configured
    path of that backend, whatever value that is: the constructors do not
    test it, so a path that is not a string ends up in the backend too. *)
Theorem backend_follows_config (TinyDB Motor : bool) (w : World) :
  ((__init__ TinyDB Motor w).1 = Ok () →
   backend_matches TinyDB Motor (__init__ TinyDB Motor w).2)
  ∧ ∀ key value,
      backend_matches TinyDB Motor w →
      (_archive_config TinyDB Motor key value w).1 = Ok () →
      backend_matches TinyDB Motor (_archive_config TinyDB Motor key value w).2.
Proof.
  split.
  - rewrite __init___eq. intros H.
    destruct (_make_backend TinyDB Motor _) as [[[]| |] w'] eqn:Hm; try done.
    by eapply _make_backend_matches.
  - intros [key|] value Hw;
      [|intros _; by eapply backend_matches_ext; [..|exact Hw]].
    destruct (String.eqb key "reload") eqn:Hreload.
    { apply String.eqb_eq in Hreload as ->. rewrite reload_eq. intros H.
      destruct (_make_backend TinyDB Motor _) as [[[]| |] w'] eqn:Hm; try done.
      by eapply _make_backend_matches. }
    destruct value as [value|].
    + destruct (bool_decide (String.eqb key "backend" = true →
                  is_Some (archive_backends TinyDB Motor !! value))) eqn:Hok.
      * apply bool_decide_eq_true in Hok. rewrite config_set_eq by done.
        destruct (is_path_key key || String.eqb key "backend") eqn:Hrebuild.
        -- destruct (_make_backend TinyDB Motor _) as [[[]| |] w'] eqn:Hm;
             try done.
           intros _. simpl. eapply backend_matches_ext; [..|
             by eapply _make_backend_matches]; done.
        -- intros _. simpl. apply orb_false_iff in Hrebuild as [Hp Hb].
           destruct Hw as (b & cls & p & H1 & H2 & H3 & H4).
           exists b, cls, p. simpl.
           assert (Hkb : key ≠ "backend") by by apply String.eqb_neq.
           assert (Hkp : key ≠ b +:+ "_path").
           { intros ->.
             apply archive_backends_cases in H2 as [(-> & _)|(-> & _)];
               discriminate. }
           by rewrite !lookup_insert_ne.
      * apply bool_decide_eq_false in Hok.
        assert (Hkb : String.eqb key "backend" = true).
        { destruct (String.eqb key "backend"); [done|]. by destruct Hok. }
        assert (Hno : ¬ is_Some (archive_backends TinyDB Motor !! value)).
        { intros Hs. by apply Hok. }
        unfold _archive_config. rewrite Hreload, Hkb.
        rewrite bool_decide_eq_false_2 by done.
        intros _. by eapply backend_matches_ext; [..|exact Hw].
    + unfold _archive_config. rewrite Hreload.
      unfold mbind, M_bind, bind, gets, getitem, say, modify, raise, mret,
        M_ret, ret. simpl.
      destruct (self_config w !! key); intros _;
        by eapply backend_matches_ext; [..|exact Hw].
Qed.

Lemma backend_follows_config_witness :
  (__init__ true false hand_edited).1 = Ok ()
  ∧ self_archive (__init__ true false hand_edited).2
    = Some (TinyDBArchive (VBool true) [] [])
  ∧ backend_matches true false (__init__ true false hand_edited).2.
Proof.
  split; [reflexivity|]. split; [reflexivity|].
  apply (backend_follows_config true false hand_edited). reflexivity.
Defined.

(** X14. a setting made with the config command is in the config file and
    comes back: after a later [__init__] (a restart) or a reload, whether or
    not the backend can then be built, the key has the value that was set. *)
Theorem setting_survives_restart (TinyDB Motor : bool) (key value : string)
    (w w1 : World) :
  key ≠ "reload" →
  (key = "backend" → is_Some (archive_backends TinyDB Motor !! value)) →
  _archive_config TinyDB Motor (Some key) (Some value) w = (Ok (), w1) →
  config_file w1 = Some (self_config w1)
  ∧ self_config w1 !! key = Some (VStr value)
  ∧ self_config (__init__ TinyDB Motor w1).2 !! key = Some (VStr value)
  ∧ ∀ v, self_config (_archive_config TinyDB Motor (Some "reload") v w1).2 !! key
         = Some (VStr value).
Proof.
  intros Hr Hb. rewrite config_set_eq; [|by apply String.eqb_neq|].
  2: { intros Heq. apply Hb. by apply String.eqb_eq. }
  intros Hrun.
  assert (Hw1 : config_file w1 = Some (self_config w1)
                ∧ self_config w1 !! key = Some (VStr value)).
  { destruct (is_path_key key || String.eqb key "backend").
    - pose proof (_make_backend_frame TinyDB Motor
        (set_config (<[key := VStr value]> (self_config w)) w))
        as (_ & _ & Hsub).
      destruct (_make_backend TinyDB Motor _) as [[[]| |] w2]; try done.
      simplify_eq. simpl in *. split; [done|].
      eapply lookup_weaken; [|exact Hsub]. apply lookup_insert_eq.
    - simplify_eq. simpl. split; [done|]. apply lookup_insert_eq. }
  destruct Hw1 as [Hfile Hkey]. split; [done|]. split; [done|].
  assert (Hm : merged (config_file w1) !! key = Some (VStr value)).
  { rewrite merged_lookup, Hfile, Hkey. done. }
  split.
  - rewrite __init___eq.
    eapply lookup_weaken; [exact Hm|].
    apply (_make_backend_frame TinyDB Motor
             (emit (Dump (merged (config_file w1)))
                (set_config_file (Some (merged (config_file w1)))
                   (set_config (merged (config_file w1))
                      (set_archive None (at_rest (self_archive w1) w1)))))).
  - intros v. rewrite reload_eq.
    eapply lookup_weaken; [exact Hm|].
    apply (_make_backend_frame TinyDB Motor
             (set_config (merged (config_file w1)) w1)).
Qed.

Lemma setting_survives_restart_witness :
  self_config
    (__init__ true false
       (_archive_config true false (Some "watch") (Some "True") started).2).2
  !! "watch" = Some (VStr "True").
Proof.
  pose proof (setting_survives_restart true false "watch" "True" started
                (_archive_config true false (Some "watch") (Some "True")
                   started).2) as H.
  destruct H as (_ & _ & H & _);
    [discriminate|discriminate|vm_compute; reflexivity|exact H].
Defined.

(** ** The event hook *)

Lemma on_message_eq (request : Route → Outcome (list Message)) (fuel : nat)
    (channel : Channel) (w : World) :
  on_message request fuel channel w
  = if truthy_value (default (VBool false) (self_config w !! "watch")) then
      match archive_channel request fuel channel w with
      | (Ok _, w') => (Ok (), w')
      | (Raise e, w') => (Raise e, w')
      | (OutOfFuel, w') => (OutOfFuel, w')
      end
    else (Ok (), w).
Proof.
  unfold on_message. rewrite bind_eq. simpl.
  destruct (truthy_value _); [|done].
  rewrite bind_eq. by destruct (archive_channel request fuel channel w) as [[]].
Qed.

(** X15. started where no config file exists, the cog does not watch: a new
    message makes [on_message] do nothing at all (no request, no write). *)
Theorem watch_off_by_default (request : Route → Outcome (list Message))
    (fuel : nat) (channel : Channel) (Motor : bool) (w : World) :
  config_file w = None →
  on_message request fuel channel (__init__ true Motor w).2
  = (Ok (), (__init__ true Motor w).2).
Proof.
  intros Hf. rewrite on_message_eq, __init___eq, Hf. simpl.
  rewrite (_make_backend_fresh true Motor _ "TinyDB"
             "data/archiver/messages.json" TinyDBArchive_cls);
    [|done|done|done|by destruct Motor|by destruct Motor].
  done.
Qed.

Lemma watch_off_by_default_witness :
  on_message (serve (map message [7; 5; 3])) 3 general started
  = (Ok (), started).
Proof.
  apply (watch_off_by_default (serve (map message [7; 5; 3])) 3 general false
           nothing).
  reflexivity.
Defined.

(** X16. [archive config watch <value>] stores the value as a string, and a
    string is true unless it is empty.  So after the command, with any value
    that is not empty ([False], [0] and [off] included), [on_message] runs
    [archive_channel] on the channel of every new message; only the empty
    value makes it do nothing. *)
Theorem watch_set_by_command (TinyDB Motor : bool) (value : string)
    (request : Route → Outcome (list Message)) (fuel : nat) (channel : Channel)
    (w : World) :
  (_archive_config TinyDB Motor (Some "watch") (Some value) w).1 = Ok ()
  ∧ self_config (_archive_config TinyDB Motor (Some "watch") (Some value) w).2
    !! "watch" = Some (VStr value)
  ∧ on_message request fuel channel
      (_archive_config TinyDB Motor (Some "watch") (Some value) w).2
    = if String.eqb value EmptyString then
        (Ok (), (_archive_config TinyDB Motor (Some "watch") (Some value) w).2)
      else
        match archive_channel request fuel channel
                (_archive_config TinyDB Motor (Some "watch") (Some value) w).2
        with
        | (Ok _, w') => (Ok (), w')
        | (Raise e, w') => (Raise e, w')
        | (OutOfFuel, w') => (OutOfFuel, w')
        end.
Proof.
  rewrite on_message_eq, config_set_eq by done. simpl.
  rewrite lookup_insert_eq. simpl.
  split; [done|]. split; [done|].
  by destruct (String.eqb value EmptyString).
Qed.

(** ** The channel command *)

Lemma archive_each_app (request : Route → Outcome (list Message)) (fuel : nat)
    (pre rest : list (option Listed)) (w : World) :
  archive_each request fuel (pre ++ rest) w
  = match archive_each request fuel pre w with
    | (Ok _, w1, said1) =>
        let '(r, w2, said2) := archive_each request fuel rest w1 in
        (r, w2, said1 ++ said2)
    | (r, w1, said1) => (r, w1, said1)
    end.
Proof.
  revert w. induction pre as [|[c|] pre IH]; intros w; simpl.
  - by destruct (archive_each request fuel rest w) as [[r w2] said2].
  - destruct (listed_type c).
    + destruct (archive_channel request fuel (listed_channel c) w)
        as [[added|e|] w']; [| |done]; rewrite IH;
        destruct (archive_each request fuel pre w') as [[[[]|e'|] w1] said1];
        try done;
        by destruct (archive_each request fuel rest w1) as [[r w2] said2].
    + rewrite IH.
      destruct (archive_each request fuel pre w) as [[[[]|e'|] w1] said1];
        try done;
        by destruct (archive_each request fuel rest w1) as [[r w2] said2].
    + rewrite IH.
      destruct (archive_each request fuel pre w) as [[[[]|e'|] w1] said1];
        try done;
        by destruct (archive_each request fuel rest w1) as [[r w2] said2].
    + rewrite IH.
      destruct (archive_each request fuel pre w) as [[[[]|e'|] w1] said1];
        try done;
        by destruct (archive_each request fuel rest w1) as [[r w2] said2].
  - done.
Qed.

Lemma archive_each_known (request : Route → Outcome (list Message))
    (fuel : nat) (targets : list (option Listed)) (w : World) :
  Forall is_Some targets →
  (∀ e, (archive_each request fuel targets w).1.1 ≠ Raise e)
  ∧ ((archive_each request fuel targets w).1.1 = Ok () →
     omap announced (archive_each request fuel targets w).2 = found targets).
Proof.
  intros Hknown. revert w.
  induction Hknown as [|t targets [c ->] Hknown IH]; intros w; [done|].
  simpl.
  assert (Hcont : ∀ w' said,
    (∀ e, (let '(r, w'', more) := archive_each request fuel targets w' in
           (r, w'', Archiving (listed_channel c) :: said ++ more)).1.1
          ≠ Raise e)
    ∧ ((let '(r, w'', more) := archive_each request fuel targets w' in
        (r, w'', Archiving (listed_channel c) :: said ++ more)).1.1 = Ok () →
       omap announced said = [] →
       omap announced
         (let '(r, w'', more) := archive_each request fuel targets w' in
          (r, w'', Archiving (listed_channel c) :: said ++ more)).2
       = listed_channel c :: found targets)).
  { intros w' said. destruct (IH w') as [Hne Hok].
    destruct (archive_each request fuel targets w') as [[r w''] more].
    simpl in *. split; [done|]. intros Hr Hsaid.
    rewrite omap_app, Hsaid, (Hok Hr). done. }
  unfold found. simpl. fold (found targets).
  destruct (listed_type c).
  - destruct (archive_channel request fuel (listed_channel c) w)
      as [[added|e|] w'].
    + destruct (Hcont w' [Got added (listed_server c)
                            (chan_name (listed_channel c))]) as [H1 H2].
      split; [exact H1|]. intros Hr. by apply H2.
    + destruct (Hcont w' [CouldNotArchive (chan_name (listed_channel c)) e])
        as [H1 H2].
      split; [exact H1|]. intros Hr. by apply H2.
    + done.
  - destruct (Hcont w []) as [H1 H2]. split; [exact H1|]. intros Hr. by apply H2.
  - destruct (Hcont w []) as [H1 H2]. split; [exact H1|]. intros Hr. by apply H2.
  - destruct (Hcont w []) as [H1 H2]. split; [exact H1|]. intros Hr. by apply H2.
Qed.



(** The run of the witness: channel 10 is refused by the remote and reported,
    channel 11 is archived, the voice channel is only announced. *)
Lemma archive_each_example :
  (archive_each (serve_only 11 chatter) 3 (map Some directory) started).1.1
  = Ok ()
  ∧ (archive_each (serve_only 11 chatter) 3 (map Some directory) started).2
    = [Archiving general; CouldNotArchive "general" (HTTPException 403);
       Archiving random; Got 2 "guild" "random"; Archiving lounge]
  ∧ stored_ids
      (archive_each (serve_only 11 chatter) 3 (map Some directory) started).1.2
    = [4; 2].
Proof. vm_compute. repeat split. Qed.

(** The loop stops at a [None]: the channels before it are processed, then
    reading [channel.id] raises, and the channels after it are not touched. *)
Lemma archive_each_stops_at_unknown
    (request : Route → Outcome (list Message)) (fuel : nat)
    (pre post : list (option Listed)) (w : World) :
  (archive_each request fuel pre w).1.1 = Ok () →
  archive_each request fuel (pre ++ None :: post) w
  = (Raise (AttributeError "id"),
     (archive_each request fuel pre w).1.2,
     (archive_each request fuel pre w).2).
Proof.
  intros Hpre. rewrite archive_each_app.
  destruct (archive_each request fuel pre w) as [[[[]|e|] w1] said1];
    try done.
  simpl. by rewrite app_nil_r.
Qed.

Lemma target_channels_names (get_channel : string → option Listed)
    (get_all_channels : list Listed) (channels : list string) :
  channels ≠ ["*"] →
  target_channels get_channel get_all_channels channels
  = (map get_channel channels,
     omap (λ channel_s,
             match get_channel channel_s with
             | None => Some (CouldNotFind channel_s)
             | Some _ => None
             end) channels).
Proof.
  intros Hne. unfold target_channels.
  destruct channels as [|c [|c' channels]]; try done.
  destruct (String.eqb_spec c "*") as [->|Hc]; done.
Qed.

(** X18. the channel command given a name the bot does not know (and not the
    lone [*]): it says that the channel could not be found, works through
    the names before it, and then fails with [AttributeError]; the names
    after it are never archived. *)
Theorem _archive_channel_unknown_name
    (request : Route → Outcome (list Message)) (fuel : nat)
    (get_channel : string → option Listed) (get_all_channels : list Listed)
    (pre post : list string) (name : string) (w : World) :
  get_channel name = None →
  pre ++ name :: post ≠ ["*"] →
  (archive_each request fuel (map get_channel pre) w).1.1 = Ok () →
  (_archive_channel request fuel get_channel get_all_channels
     (pre ++ name :: post) w).1.1 = Raise (AttributeError "id")
  ∧ (_archive_channel request fuel get_channel get_all_channels
       (pre ++ name :: post) w).1.2
    = (archive_each request fuel (map get_channel pre) w).1.2
  ∧ CouldNotFind name
    ∈ (_archive_channel request fuel get_channel get_all_channels
         (pre ++ name :: post) w).2.
Proof.
  intros Hname Hne Hpre. unfold _archive_channel.
  rewrite target_channels_names by done.
  rewrite map_app. simpl. rewrite Hname.
  rewrite archive_each_stops_at_unknown by done. simpl.
  split; [done|]. split; [done|].
  apply elem_of_app. left. apply list_elem_of_omap. exists name.
  split; [|by rewrite Hname]. apply elem_of_app. right. left.
Qed.

Lemma _archive_channel_unknown_name_witness :
  (_archive_channel (serve chatter) 3 by_id directory
     (["11"] ++ "99" :: ["10"]) started).1.1 = Raise (AttributeError "id")
  ∧ (_archive_channel (serve chatter) 3 by_id directory
       (["11"] ++ "99" :: ["10"]) started).1.2
    = (archive_each (serve chatter) 3 (map by_id ["11"]) started).1.2
  ∧ CouldNotFind "99"
    ∈ (_archive_channel (serve chatter) 3 by_id directory
         (["11"] ++ "99" :: ["10"]) started).2.
Proof.
  apply (_archive_channel_unknown_name (serve chatter) 3 by_id directory
           ["11"] ["10"] "99" started).
  - reflexivity.
  - discriminate.
  - vm_compute. reflexivity.
Defined.

Lemma archive_each_keeps (request : Route → Outcome (list Message))
    (fuel : nat) (targets : list (option Listed)) (w : World) :
  keeps w (archive_each request fuel targets w).1.2.
Proof.
  revert w. induction targets as [|[c|] targets IH]; intros w; simpl;
    try apply keeps_refl.
  assert (Hcont : ∀ w' said, keeps w w' →
    keeps w (let '(r, w'', more) := archive_each request fuel targets w' in
             (r, w'', Archiving (listed_channel c) :: said ++ more)).1.2).
  { intros w' said Hw'. specialize (IH w').
    destruct (archive_each request fuel targets w') as [[r w''] more].
    by eapply keeps_trans. }
  destruct (listed_type c); try (apply (Hcont w []); apply keeps_refl).
  pose proof (keeps_archive_channel request fuel (listed_channel c) w) as Hk.
  destruct (archive_channel request fuel (listed_channel c) w)
    as [[added|e|] w']; simpl in *; [| |done].
  - by apply (Hcont w' [Got added (listed_server c)
                          (chan_name (listed_channel c))]).
  - by apply (Hcont w' [CouldNotArchive (chan_name (listed_channel c)) e]).
Qed.

(** X19. whatever names it is given and however it ends, the channel command
    leaves the configuration, the config file and the stores at rest as
    they were, and the active backend keeps every record it held, in order:
    the command only ever adds records. *)
Theorem _archive_channel_keeps (request : Route → Outcome (list Message))
    (fuel : nat) (get_channel : string → option Listed)
    (get_all_channels : list Listed) (channels : list string) (w : World) :
  keeps w (_archive_channel request fuel get_channel get_all_channels
             channels w).1.2.
Proof.
  unfold _archive_channel.
  destruct (target_channels get_channel get_all_channels channels)
    as [targets not_found].
  pose proof (archive_each_keeps request fuel targets w) as Hk.
  by destruct (archive_each request fuel targets w) as [[r w'] said].
Qed.

(** X20. [archive channel *] takes the channels from the bot itself, so it
    looks up no name and cannot meet an unknown one: it never raises, and
    it announces every channel of the bot, in order, when it ends. *)
Theorem _archive_channel_star (request : Route → Outcome (list Message))
    (fuel : nat) (get_channel : string → option Listed)
    (get_all_channels : list Listed) (w : World) :
  (∀ e, (_archive_channel request fuel get_channel get_all_channels ["*"]
           w).1.1 ≠ Raise e)
  ∧ ((_archive_channel request fuel get_channel get_all_channels ["*"] w).1.1
     = Ok () →
     omap announced
       (_archive_channel request fuel get_channel get_all_channels ["*"] w).2
     = map listed_channel get_all_channels).
Proof.
  unfold _archive_channel. simpl.
  assert (Hknown : Forall is_Some (map Some get_all_channels)).
  { apply Forall_fmap, Forall_forall. intros c _. by eexists. }
  destruct (archive_each_known request fuel (map Some get_all_channels) w
              Hknown) as [Hne Hok].
  destruct (archive_each request fuel (map Some get_all_channels) w)
    as [[r w'] said]. simpl in *.
  split; [done|]. intros Hr. rewrite (Hok Hr). unfold found.
  clear. induction get_all_channels as [|c l IH]; simpl; [done|by f_equal].
Qed.

Lemma archive_channel_first_page_witness :
  (archive_channel (serve (map message [7; 5; 3])) 1 general started).1
  = Ok 3%nat
  ∧ self_archive
      (archive_channel (serve (map message [7; 5; 3])) 1 general started).2
    = Some (TinyDBArchive "data/archiver/messages.json"
              ([] ++ map message [7; 5; 3]) ([] ++ map message [7; 5; 3]))
  ∧ (Forall (λ x, channel_id x = chan_id general) (map message [7; 5; 3]) →
     get_messages
       (TinyDBArchive "data/archiver/messages.json"
          ([] ++ map message [7; 5; 3]) ([] ++ map message [7; 5; 3]))
       Omitted (Obj (chan_id general)) = map message [7; 5; 3]).
Proof.
  apply (archive_channel_first_page (serve (map message [7; 5; 3])) 0 general
           started "data/archiver/messages.json" [] [] (message 7)
           [message 5; message 3]); reflexivity.
Defined.

(** ** A run that ends *)

Lemma archive_channel_terminates_witness :
  (archive_channel (serve (map message [9; 8; 7; 5; 3])) 6 general started).1
  ≠ OutOfFuel.
Proof.
  apply (archive_channel_terminates (map message [9; 8; 7; 5; 3]) general 6
           started).
  - repeat constructor.
  - intros a Ha. vm_compute in Ha. injection Ha as <-. constructor.
  - simpl. lia.
Defined.
